(** * CTD.py: seed selection, rank collection and winner selection

    A shallow embedding of the driver script [CTD.py].  The script is one
    long [__main__] block; it is cut here into the stages it runs through
    (argument record, graph construction, seed selection, seed validation,
    rank collection, scoring, winner selection, report, JSON dumps), each
    stage a definition that follows the lines of the script it embeds.

    The helpers the script imports ([Python.data], [Python.graph],
    [Python.mle]) and the libraries it calls (pandas, numpy, scipy,
    scikit-learn, json) are not part of the script: they are the fields of
    a [World] record, so every theorem holds for any behaviour of theirs,
    unless a hypothesis says otherwise.

    Numbers: every finite float64 is a rational, so measured values and
    d-scores are in [Q] and compared exactly as floats are.  The results of
    [2.0 ** x] are taken in [R] (the power function without rounding). *)

From Stdlib Require Import List String Ascii Bool Arith ZArith QArith Lia.
From Stdlib Require Import Qabs Permutation Sorted.
From Stdlib Require Import Reals Qreals Lra.
Import ListNotations.

Local Close Scope R_scope.
Local Close Scope Q_scope.
Local Open Scope string_scope.
Local Open Scope list_scope.

(** ** Python containers *)

Module Py.

(** [d[k] = v] on a dict, which keeps insertion order: an existing key
    keeps its place and takes the new value, a new key goes last. *)
Fixpoint dict_set {V : Type} (k : string) (v : V) (d : list (string * V))
  : list (string * V) :=
  match d with
  | [] => [(k, v)]
  | (k', v') :: d' =>
      if String.eqb k k' then (k', v) :: d' else (k', v') :: dict_set k v d'
  end.

Fixpoint dict_get {V : Type} (k : string) (d : list (string * V)) : option V :=
  match d with
  | [] => None
  | (k', v') :: d' => if String.eqb k k' then Some v' else dict_get k d'
  end.

(** [k in d]. *)
Definition dict_mem {V : Type} (k : string) (d : list (string * V)) : bool :=
  existsb (String.eqb k) (map fst d).

Definition dict_keys {V : Type} (d : list (string * V)) : list string :=
  map fst d.

(** [l[:k]]: a negative bound counts from the end. *)
Definition slice_to {A : Type} (k : Z) (l : list A) : list A :=
  if (0 <=? k)%Z then firstn (Z.to_nat k) l
  else firstn (Z.to_nat (Z.of_nat (List.length l) + k)) l.

(** Truth value of an optional string argument ([None] and [''] are
    false). *)
Definition truthy (s : option string) : bool :=
  match s with
  | None => false
  | Some s => negb (String.eqb s EmptyString)
  end.

End Py.

(** ** numpy / pandas primitives used by the winner selection *)

Module Np.

Fixpoint where_from (i : nat) (mask : list bool) : list nat :=
  match mask with
  | [] => []
  | b :: m => if b then i :: where_from (S i) m else where_from (S i) m
  end.

(** [np.where(mask)]: the positions at which the mask holds. *)
Definition where_ (mask : list bool) : list nat := where_from 0 mask.

(** [df.iloc[positions]]: rows by position.  The positions the script
    uses come from [where_] on a mask of the same frame, so they are
    always in range. *)
Definition iloc {A : Type} (frame : list A) (positions : list nat) : list A :=
  flat_map (fun p => match nth_error frame p with
                     | Some x => [x]
                     | None => []
                     end) positions.

(** [series.max()]: none for an empty series (pandas gives NaN, which
    compares unequal to everything). *)
Definition series_max {A : Type} (leb : A -> A -> bool) (s : list A) : option A :=
  match s with
  | [] => None
  | x :: t => Some (fold_left (fun m y => if leb m y then y else m) t x)
  end.

(** [series == m] where [m] came from [series.max()]. *)
Definition eq_max {A : Type} (eqb : A -> A -> bool) (m : option A) (x : A) : bool :=
  match m with
  | Some m => eqb x m
  | None => false
  end.

End Np.

(** ** The encoding-result table *)

(** One row of the table returned by [mle.get_encoding_length], with the
    columns the script reads. *)
Record Row : Type := mkRow {
  optimalBS : string;
  subsetSize : Z;
  d_score : Q
}.

Inductive failure : Type :=
| Exit (code : Z)
| FileNotFoundError
| NameError
| KeyError
| IndexError
| ValueError.

(** A frame is a list of rows with their index labels; the table comes
    with the default index 0, 1, 2, ... *)
Definition range_index {A : Type} (l : list A) : list (nat * A) :=
  combine (seq 0 (List.length l)) l.

Section Selection.

Variable res : list Row.

(** Lines 173-174. *)
Definition ind_mx : list nat :=
  Np.where_ (map (fun r => Np.eq_max Qeq_bool
                             (Np.series_max Qle_bool (map d_score res))
                             (d_score r)) res).

Definition highest_dscore_paths : list (nat * Row) :=
  Np.iloc (range_index res) ind_mx.

(** Lines 178-180, tiebreaker 1. *)
Definition str_len (f : list (nat * Row)) : list nat :=
  map (fun x => String.length (optimalBS (snd x))) f.

Definition ind_F_longest : list (nat * Row) :=
  Np.iloc highest_dscore_paths
    (Np.where_ (map (Np.eq_max Nat.eqb
                       (Np.series_max Nat.leb (str_len highest_dscore_paths)))
                    (str_len highest_dscore_paths))).

(** Lines 183-184, tiebreaker 2. *)
Definition sizes (f : list (nat * Row)) : list Z :=
  map (fun x => subsetSize (snd x)) f.

Definition ind_F_largest : list (nat * Row) :=
  Np.iloc ind_F_longest
    (Np.where_ (map (Np.eq_max Z.eqb
                       (Np.series_max Z.leb (sizes ind_F_longest)))
                    (sizes ind_F_longest))).

(** Lines 185-186: the label of the first remaining row, then the row
    of the table at that position. *)
Definition select_F : failure + (nat * Row) :=
  match ind_F_largest with
  | [] => inl IndexError
  | (ind_F, _) :: _ =>
      match nth_error res ind_F with
      | Some F_info => inr (ind_F, F_info)
      | None => inl IndexError
      end
  end.

End Selection.

(** ** Strings: [split], [strip], [replace], [os.path.basename] *)

Module Str.

(** [s.split(sep)] for a one-character separator: never empty, a
    separator at either end gives an empty field. *)
Fixpoint split (sep : ascii) (s : string) : list string :=
  match s with
  | EmptyString => [EmptyString]
  | String c s' =>
      if Ascii.eqb c sep then EmptyString :: split sep s'
      else match split sep s' with
           | [] => [String c EmptyString]
           | h :: t => String c h :: t
           end
  end.

(** ASCII white space as [str.strip] sees it: tab to carriage return,
    the four separators 28-31 and the blank.  Identifiers are ASCII. *)
Definition is_space (c : ascii) : bool :=
  let n := nat_of_ascii c in
  ((9 <=? n)%nat && (n <=? 13)%nat) || ((28 <=? n)%nat && (n <=? 32)%nat).

Fixpoint lstrip (s : string) : string :=
  match s with
  | EmptyString => EmptyString
  | String c s' => if is_space c then lstrip s' else s
  end.

Fixpoint rstrip (s : string) : string :=
  match s with
  | EmptyString => EmptyString
  | String c s' =>
      match rstrip s' with
      | EmptyString => if is_space c then EmptyString else String c EmptyString
      | r => String c r
      end
  end.

Definition strip (s : string) : string := rstrip (lstrip s).

(** [s.replace(old, new)] for a non-empty [old]: every occurrence, left
    to right, without overlap.  [skip] counts the characters of a match
    still to be dropped. *)
Fixpoint replace_from (old new : string) (skip : nat) (s : string) : string :=
  match s with
  | EmptyString => EmptyString
  | String c s' =>
      match skip with
      | S k => replace_from old new k s'
      | O => if String.prefix old s
             then new ++ replace_from old new (String.length old - 1) s'
             else String c (replace_from old new 0 s')
      end
  end.

Definition replace (old new : string) (s : string) : string :=
  replace_from old new 0 s.

(** [os.path.basename]: what follows the last slash. *)
Fixpoint basename (p : string) : string :=
  match p with
  | EmptyString => EmptyString
  | String c p' =>
      if existsb (Ascii.eqb "/"%char) (list_ascii_of_string p') then basename p'
      else if Ascii.eqb c "/"%char then p' else p
  end.

End Str.

(** ** Tables *)

(** A measurement table read with [index_col=0]: row labels (nodes),
    column labels (patients) and the values row by row. *)
Record DataFrame : Type := mkDF {
  df_index : list string;
  df_columns : list string;
  df_values : list (list Q)
}.

(** The adjacency table: labels and weights. *)
Record AdjFrame : Type := mkAdj {
  adj_index : list string;
  adj_columns : list string;
  adj_values : list (list Q)
}.

Module Pd.

Fixpoint index_of (x : string) (l : list string) : option nat :=
  match l with
  | [] => None
  | y :: l' => if String.eqb x y then Some 0%nat
               else option_map S (index_of x l')
  end.

(** [df[col]] as the list of its values, none for an unknown label. *)
Definition column (df : DataFrame) (col : string) : option (list Q) :=
  match index_of col (df_columns df) with
  | Some j => Some (map (fun row => nth j row 0%Q) (df_values df))
  | None => None
  end.

Fixpoint insert_desc (x : string * Q) (l : list (string * Q)) : list (string * Q) :=
  match l with
  | [] => [x]
  | y :: l' => if Qle_bool (snd y) (snd x) then x :: l
               else y :: insert_desc x l'
  end.

Definition sort_desc (l : list (string * Q)) : list (string * Q) :=
  fold_right insert_desc [] l.

(** [list(df.sort_values(by=col, ascending=False).index)].  pandas does
    not fix the order of rows with equal values; here they keep their
    table order. *)
Definition sort_values_desc_index (df : DataFrame) (col : string)
  : option (list string) :=
  match column df col with
  | Some vals => Some (map fst (sort_desc (combine (df_index df) vals)))
  | None => None
  end.

(** [df[cols]]: the named columns, in the order asked. *)
Fixpoint select_columns_values (df : DataFrame) (cols : list string)
  : option (list (list Q)) :=
  match cols with
  | [] => Some []
  | c :: cs =>
      match column df c, select_columns_values df cs with
      | Some v, Some vs => Some (v :: vs)
      | _, _ => None
      end
  end.

Fixpoint transpose_cols (n : nat) (cols : list (list Q)) : list (list Q) :=
  match n with
  | O => []
  | S n' => map (fun c => hd 0%Q c) cols :: transpose_cols n' (map (@tl Q) cols)
  end.

Definition select_columns (df : DataFrame) (cols : list string) : option DataFrame :=
  match select_columns_values df cols with
  | Some vs => Some (mkDF (df_index df) cols
                          (transpose_cols (List.length (df_index df)) vs))
  | None => None
  end.

(** [df.apply(f)] elementwise. *)
Definition apply (f : Q -> Q) (df : DataFrame) : DataFrame :=
  mkDF (df_index df) (df_columns df) (map (map f) (df_values df)).

(** [df.T]. *)
Definition T (df : DataFrame) : DataFrame :=
  mkDF (df_columns df) (df_index df)
       (transpose_cols (List.length (df_columns df)) (df_values df)).

(** [np.fill_diagonal(m, 0)]. *)
Fixpoint fill_diagonal_from (i : nat) (m : list (list Q)) : list (list Q) :=
  match m with
  | [] => []
  | row :: m' =>
      (firstn i row ++ match skipn i row with
                       | [] => []
                       | _ :: r => 0%Q :: r
                       end) :: fill_diagonal_from (S i) m'
  end.

Definition fill_diagonal0 (m : list (list Q)) : list (list Q) :=
  fill_diagonal_from 0 m.

End Pd.

(** ** Ranks, bitstrings, the arguments and the outside world *)

(** A rank list: the nodes in visiting order, each with its membership
    bit. *)
Definition rank_list : Type := list (string * Z).

(** The [ranks] dict, node to rank list, in insertion order. *)
Definition ranks_dict : Type := list (string * rank_list).

(** The dict [G], node to accumulator. *)
Definition graph_dict : Type := list (string * Q).

(** The value of [np.log2(len(G))]: minus infinity at 0 (numpy warns and
    goes on), the logarithm of a positive count otherwise. *)
Inductive np_float : Type :=
| neg_inf
| log2_of (n : positive).

Definition np_log2 (n : nat) : np_float :=
  match n with
  | O => neg_inf
  | S _ => log2_of (Pos.of_nat n)
  end.

(** What the script hands to the scorer as [pvals]: a pandas frame or a
    bare numpy array. *)
Inductive pvals_arg : Type :=
| PvalFrame (df : DataFrame)
| PvalArray (a : list (list Q)).

Definition pvals_T (p : pvals_arg) : pvals_arg :=
  match p with
  | PvalFrame df => PvalFrame (Pd.T df)
  | PvalArray a =>
      PvalArray (Pd.transpose_cols (List.length (hd [] a)) a)
  end.

(** The parsed command line ([argparse] defaults in comments). *)
Record Args : Type := mkArgs {
  experimental : string;            (* '' *)
  control : string;                 (* '' *)
  adj_matrix : string;              (* '' *)
  s_module : option string;         (* None *)
  ranks : string;                   (* '' *)
  include_not_in_s : option nat;    (* action="count": None or the count *)
  kmx : Z;                          (* 15 *)
  present_in_perc_for_s : Q;        (* 0.5 *)
  output_name : option string;
  out_graph_name : option string;
  num_processes : option Z;         (* os.cpu_count(), which may be None *)
  verbose : option Z
}.

(** Everything the script reaches outside itself: the file system as the
    run finds it, and the imported functions.  The files the run writes
    are taken to be other paths than the ones it reads afterwards. *)
Record World : Type := mkWorld {
  (* os.path.exists *)
  path_exists : string -> bool;
  (* pd.read_csv(path, index_col=0) of an existing file *)
  read_csv_indexed : string -> DataFrame;
  (* pd.read_csv(path) of the adjacency file: header and rows *)
  read_csv_adj : string -> list string * list (list Q);
  (* pd.read_csv(path) of the seed table: its columns, cells through str() *)
  read_csv_columns : string -> list (list string);
  (* json.load of the rank cache *)
  json_load : string -> ranks_dict;
  (* data.surrogate_profiles(data, ref_data, std=1) *)
  surrogate_profiles : DataFrame -> DataFrame -> DataFrame;
  (* covariance.graphical_lasso(np.cov(df, bias=False), alpha=0.5)[1] *)
  graphical_lasso_icov : DataFrame -> list (list Q);
  (* graph.single_node_get_node_ranks(n, G, p1=1.0, threshold_diff=0.01,
     adj_mat, S, num_misses, verbose) *)
  single_node_get_node_ranks :
    string -> graph_dict -> AdjFrame -> list string -> np_float -> option Z
    -> rank_list * string;
  (* mle.get_pt_bs_by_k(S, ranks) *)
  get_pt_bs_by_k : list string -> ranks_dict -> list rank_list;
  (* mle.get_encoding_length(bs, G, pvals, pt_id) *)
  get_encoding_length :
    list rank_list -> graph_dict -> pvals_arg -> option string -> list Row;
  (* scipy.stats.norm.sf *)
  norm_sf : Q -> Q
}.

(** The result record dumped as JSON. *)
Record OutDict : Type := mkOut {
  out_S_perturbed_nodes : list string;
  out_F_most_connected_nodes : list string;
  out_p_value : R;
  out_kmcm_probability : R;
  out_optimal_bitstring : string;
  out_number_of_nodes_in_G : nat
}.

(** What a run does that can be seen from outside, in order. *)
Inductive event : Type :=
| EvToCsv (path : string) (adj : AdjFrame)
| EvRank (n : string) (num_misses : np_float)
| EvPoolMap (processes : option Z) (num_misses : np_float) (seeds : list string)
| EvScore (pvals : pvals_arg) (pt_id : option string)
| EvDumpResult (path : string) (out : OutDict)
| EvDumpRanks (path : string) (rk : ranks_dict).

(** ** The run monad: a log of events and a result or a failure *)

Definition M (A : Type) : Type := (list event * (failure + A))%type.

Definition ret {A : Type} (x : A) : M A := ([], inr x).
Definition raise {A : Type} (e : failure) : M A := ([], inl e).
Definition emit (e : event) : M unit := ([e], inr tt).

Definition bind {A B : Type} (m : M A) (k : A -> M B) : M B :=
  match m with
  | (t, inl e) => (t, inl e)
  | (t, inr x) => (t ++ fst (k x), snd (k x))
  end.

Declare Scope run_scope.
Delimit Scope run_scope with run.
Notation "x <- m ;; k" := (bind m (fun x => k))
  (at level 61, m at next level, right associativity) : run_scope.
Notation "' pat <- m ;; k" := (bind m (fun x => match x with pat => k end))
  (at level 61, pat pattern, m at next level, right associativity) : run_scope.
Notation "m ;; k" := (bind m (fun _ => k))
  (at level 61, right associativity) : run_scope.
Local Open Scope run_scope.

Definition lift {A : Type} (r : failure + A) : M A := ([], r).

Definition trace {A : Type} (m : M A) : list event := fst m.
Definition outcome {A : Type} (m : M A) : failure + A := snd m.

(** ** The script, stage by stage *)

Section Script.

Variable w : World.
Variable argv : Args.

(** Lines 52-70: the experimental table, if its file exists, and the
    patients.  Without the file [experimental_df] stays unbound. *)
Definition read_experimental : M (option DataFrame * list string) :=
  if path_exists w (experimental argv) then
    let experimental_df := read_csv_indexed w (experimental argv) in
    control_data <-
      (if path_exists w (control argv)
       then ret (read_csv_indexed w (control argv))
       else raise FileNotFoundError) ;;
    let target_patients := df_columns experimental_df in
    ret (Some (surrogate_profiles w experimental_df control_data),
         target_patients)
  else ret (None, []).

(** Lines 73-85: the adjacency table, read or inferred; an inferred one
    is written out at once when [--out_graph_name] is given. *)
Definition read_adjacency (experimental_df : option DataFrame) : M AdjFrame :=
  if path_exists w (adj_matrix argv) then
    let '(columns, values) := read_csv_adj w (adj_matrix argv) in
    if Nat.eqb (List.length values) (List.length columns)
    then ret (mkAdj columns columns values)
    else raise ValueError
  else
    match experimental_df with
    | None => raise NameError
    | Some df =>
        let icov := Pd.fill_diagonal0 (graphical_lasso_icov w df) in
        if Nat.eqb (List.length icov) (List.length (df_index df)) then
          let adj_df := mkAdj (df_index df) (df_index df) icov in
          (if Py.truthy (out_graph_name argv)
           then match out_graph_name argv with
                | Some name => emit (EvToCsv name adj_df)
                | None => ret tt
                end
           else ret tt) ;;
          ret adj_df
        else raise ValueError
    end.

(** Lines 88-90. *)
Definition build_G (adj_df : AdjFrame) : graph_dict :=
  fold_left (fun G v => Py.dict_set v 0%Q G) (adj_columns adj_df) [].

(** Lines 97-100: the top [kmx] nodes of every patient, one after the
    other. *)
Fixpoint top_nodes (experimental_df : option DataFrame)
         (target_patients : list string) : failure + list string :=
  match target_patients with
  | [] => inr []
  | pt :: rest =>
      match experimental_df with
      | None => inl NameError
      | Some df =>
          match Pd.sort_values_desc_index df pt with
          | None => inl KeyError
          | Some temp_index =>
              match top_nodes experimental_df rest with
              | inl e => inl e
              | inr S_rest => inr (Py.slice_to (kmx argv) temp_index ++ S_rest)
              end
          end
      end
  end.

(** Line 103: [Counter(S_set)]. *)
Definition Counter (l : list string) : list (string * nat) :=
  fold_left (fun d x => Py.dict_set x (S (match Py.dict_get x d with
                                          | Some c => c
                                          | None => O
                                          end)) d) l [].

(** Lines 106-107. *)
Definition frequent_nodes (S_set : list string) (n_patients : nat) : list string :=
  map fst
    (filter (fun kc =>
               Qle_bool (inject_Z (Z.of_nat n_patients) * present_in_perc_for_s argv)
                        (inject_Z (Z.of_nat (snd kc))))
            (Counter S_set)).

(** Lines 96-112: the three ways to the seed list. *)
Definition S_perturbed_nodes (experimental_df : option DataFrame)
           (target_patients : list string) : failure + list string :=
  if negb (Py.truthy (s_module argv)) then
    match top_nodes experimental_df target_patients with
    | inl e => inl e
    | inr S_set => inr (frequent_nodes S_set (List.length target_patients))
    end
  else
    match s_module argv with
    | None => inr []
    | Some spec =>
        if path_exists w spec then
          match rev (read_csv_columns w spec) with
          | [] => inl IndexError
          | last_column :: _ => inr last_column
          end
        else inr (map Str.strip (Str.split ","%char spec))
    end.

(** Lines 117-120. *)
Fixpoint validate (G : graph_dict) (S_nodes : list string) : M unit :=
  match S_nodes with
  | [] => ret tt
  | node :: rest =>
      if Py.dict_mem node G then validate G rest else raise (Exit 1)
  end.

(** What the run knows when the seeds have been chosen. *)
Record Setup : Type := mkSetup {
  st_experimental_df : option DataFrame;
  st_target_patients : list string;
  st_adj_df : AdjFrame;
  st_G : graph_dict;
  st_S : list string
}.

(** Lines 52-114. *)
Definition setup : M Setup :=
  '(experimental_df, target_patients) <- read_experimental ;;
  adj_df <- read_adjacency experimental_df ;;
  let G := build_G adj_df in
  S_nodes <- lift (S_perturbed_nodes experimental_df target_patients) ;;
  ret (mkSetup experimental_df target_patients adj_df G S_nodes).

Section Ranking.

Variable st : Setup.

Definition ranker (n : string) : rank_list * string :=
  single_node_get_node_ranks w n (st_G st) (st_adj_df st) (st_S st)
    (np_log2 (List.length (st_G st))) (verbose argv).

(** Lines 134-137: the plain loop. *)
Fixpoint ranks_loop (todo : list string) (rk : ranks_dict) : ranks_dict :=
  match todo with
  | [] => rk
  | node :: rest => ranks_loop rest (Py.dict_set node (fst (ranker node)) rk)
  end.

(** Lines 140-142: [pool.map] gives the results in the order of the
    seeds. *)
Definition ranks_collection (seeds : list string) : list (rank_list * string) :=
  map ranker seeds.

(** Lines 146-147. *)
Fixpoint gather (collection : list (rank_list * string)) (rk : ranks_dict)
  : ranks_dict :=
  match collection with
  | [] => rk
  | tup :: rest => gather rest (Py.dict_set (snd tup) (fst tup) rk)
  end.

(** [Pool(processes)] refuses a count below one. *)
Definition Pool (processes : option Z) : M unit :=
  match processes with
  | Some n => if (n <? 1)%Z then raise ValueError else ret tt
  | None => ret tt
  end.

(** Lines 126-147. *)
Definition collect_ranks : M ranks_dict :=
  if path_exists w (ranks argv) then ret (json_load w (ranks argv))
  else
    match num_processes argv with
    | Some 1%Z =>
        fold_right (fun node k => emit (EvRank node (np_log2 (List.length (st_G st)))) ;; k)
                   (ret tt) (st_S st) ;;
        ret (ranks_loop (st_S st) [])
    | processes =>
        Pool processes ;;
        emit (EvPoolMap processes (np_log2 (List.length (st_G st))) (st_S st)) ;;
        ret (gather (ranks_collection (st_S st)) [])
    end.

(** Lines 157-169: the p-value matrix and the patient identifier. *)
Definition data_mx_pvals : M pvals_arg :=
  if path_exists w (experimental argv) then
    match st_experimental_df st with
    | None => raise NameError
    | Some df =>
        match Pd.select_columns df (st_target_patients st) with
        | None => raise KeyError
        | Some sub =>
            ret (PvalFrame (Pd.apply (fun x => 2 * norm_sf w (Qabs x))%Q sub))
        end
    end
  else ret (PvalArray [[0%Q]]).

Definition pt_id_of (p : pvals_arg) : M (option string) :=
  match p with
  | PvalFrame df =>
      match df_columns df with
      | c :: _ => ret (Some c)
      | [] => raise IndexError
      end
  | PvalArray _ => ret None
  end.

(** Line 193. *)
Definition p_value_F (F_info : Row) : R :=
  Rpower 2 (-1 * Q2R (d_score F_info)).

(** Lines 198-202. *)
Definition keep_nodes : list Z :=
  match include_not_in_s argv with
  | Some (S _) => [0%Z; 1%Z]
  | _ => [1%Z]
  end.

Definition Fs (entry : rank_list) : list string :=
  map fst (filter (fun d => existsb (Z.eqb (snd d)) keep_nodes) entry).

(** Line 206. *)
Definition kmcm_probability (F_info : Row) : R :=
  Rpower 2 (IZR (-1 * Z.of_nat (String.length (optimalBS F_info)))).

(** Lines 218-226. *)
Definition outfname : string :=
  if negb (Py.truthy (output_name argv)) then
    if String.eqb (experimental argv) EmptyString
    then Str.replace "csv" "json" (Str.basename (adj_matrix argv))
    else Str.replace "csv" "json" (Str.basename (experimental argv))
  else match output_name argv with
       | Some name => name
       | None => EmptyString
       end.

Definition outrname : string := Str.replace ".json" "_ranks.json" outfname.

(** Lines 151-232: bitstrings, scoring, the winner, the report and
    the two dumps. *)
Definition score_and_report (rk : ranks_dict) : M unit :=
  let pt_bs_by_k := get_pt_bs_by_k w (st_S st) rk in
  pvals <- data_mx_pvals ;;
  pt_id <- pt_id_of pvals ;;
  emit (EvScore (pvals_T pvals) pt_id) ;;
  let res := get_encoding_length w pt_bs_by_k (st_G st) (pvals_T pvals) pt_id in
  '(ind_F, F_info) <- lift (select_F res) ;;
  entry <- lift (match nth_error pt_bs_by_k ind_F with
                 | Some e => inr e
                 | None => inl IndexError
                 end) ;;
  let out_dict :=
    mkOut (st_S st) (Fs entry) (p_value_F F_info) (kmcm_probability F_info)
          (optimalBS F_info) (List.length (st_G st)) in
  emit (EvDumpResult outfname out_dict) ;;
  emit (EvDumpRanks outrname rk).

End Ranking.

(** The whole run. *)
Definition main : M unit :=
  st <- setup ;;
  validate (st_G st) (st_S st) ;;
  rk <- collect_ranks st ;;
  score_and_report st rk.

End Script.

(** ** A small world to run the script in *)

Module Toy.

Definition bit_of (S_nodes : list string) (n : string) : Z :=
  if existsb (String.eqb n) S_nodes then 1%Z else 0%Z.

(** A stand-in for the walk: the start node, then the other nodes of
    [G] in table order, each tagged with its membership in [S]; the
    start node is echoed. *)
Definition walk (n : string) (G : graph_dict) (adj : AdjFrame)
           (S_nodes : list string) (num_misses : np_float) (verbose : option Z)
  : rank_list * string :=
  (map (fun k => (k, bit_of S_nodes k))
       (n :: filter (fun k => negb (String.eqb k n)) (Py.dict_keys G)), n).

Fixpoint prefixes {A : Type} (l : list A) : list (list A) :=
  match l with
  | [] => []
  | x :: l' => [x] :: map (cons x) (prefixes l')
  end.

(** Modelled from the spec: [mle.get_pt_bs_by_k] is not in the script;
    section 4.3 says that for each seed's rank list it gives the prefix
    of every length k from 1 to the length of the list. *)
Definition bitstrings (S_nodes : list string) (rk : ranks_dict) : list rank_list :=
  flat_map (fun s => match Py.dict_get s rk with
                     | Some r => prefixes r
                     | None => []
                     end) S_nodes.

Definition bits_string (e : rank_list) : string :=
  string_of_list_ascii
    (map (fun d => if Z.eqb (snd d) 1 then "1"%char else "0"%char) e).

(** A stand-in for the scorer: one row per bitstring, scored by ones
    minus zeros. *)
Definition score (bs : list rank_list) (G : graph_dict) (pvals : pvals_arg)
           (pt_id : option string) : list Row :=
  map (fun e =>
         mkRow (bits_string e) (Z.of_nat (List.length e))
               (inject_Z (fold_right (fun d acc => if Z.eqb (snd d) 1 then acc + 1 else acc - 1)%Z
                                     0%Z e)))
      bs.

Definition nodes4 : list string := ["A"; "B"; "C"; "D"].

(** The path A-B-C-D. *)
Definition path4 : list (list Q) :=
  [[0; 1; 0; 0]; [1; 0; 1; 0]; [0; 1; 0; 1]; [0; 0; 1; 0]]%Q.

(** Two patients over the four nodes. *)
Definition patients : DataFrame :=
  mkDF nodes4 ["p1"; "p2"]
       [[3; 2]; [2; 3]; [1; 0]; [0; 1]]%Q.

Definition cached_ranks : ranks_dict :=
  [("A", [("A", 1%Z); ("B", 1%Z); ("C", 0%Z)]); ("B", [("B", 1%Z); ("A", 1%Z)])].

(** The world in which exactly the paths [files] exist; the adjacency
    file holds [adj]. *)
Definition world (files : list string) (adj : list string * list (list Q)) : World :=
  mkWorld (fun p => existsb (String.eqb p) files)
          (fun _ => patients)
          (fun _ => adj)
          (fun _ => [["x"; "y"]; ["A"; "B"]])
          (fun _ => cached_ranks)
          (fun d _ => d)
          (fun d => map (fun _ => map (fun _ => 0%Q) (df_index d)) (df_index d))
          walk bitstrings score
          (fun _ => (1 # 2)%Q).

Definition args (s : option string) (processes : option Z) : Args :=
  mkArgs EmptyString EmptyString "adj.csv" s EmptyString None 15%Z (1 # 2)%Q None None processes None.

(** The adjacency file of the four-node path is there, nothing else. *)
Definition w_adj : World := world ["adj.csv"] (nodes4, path4).

(** Seeds A and B given on the command line, one worker. *)
Definition argv_AB : Args := args (Some "A, B") (Some 1%Z).

Definition winner_AB : Row := mkRow "11" 2 (inject_Z 2).

Definition out_AB : OutDict :=
  mkOut ["A"; "B"] ["A"; "B"] (p_value_F winner_AB) (kmcm_probability winner_AB)
        "11" 4.

(** Seeds A and X; X is not a node of the graph. *)
Definition argv_AX : Args := args (Some "A,X") (Some 1%Z).

(** Measurements and controls are there, no adjacency file: the network
    is inferred. *)
Definition w_inferred : World := world ["exp.csv"; "ctl.csv"] ([], []).

(** The inferred network is to be written to graph.csv; the seed X is
    unknown. *)
Definition argv_inferred_X : Args :=
  mkArgs "exp.csv" "ctl.csv" EmptyString (Some "X") EmptyString None 15%Z (1 # 2)%Q
         None (Some "graph.csv") (Some 1%Z) None.

Definition setup_AX : Setup :=
  mkSetup None [] (mkAdj nodes4 nodes4 path4)
          [("A", 0%Q); ("B", 0%Q); ("C", 0%Q); ("D", 0%Q)] ["A"; "X"].

(** The adjacency file and a rank cache are there. *)
Definition w_cached : World := world ["adj.csv"; "ranks.json"] (nodes4, path4).

Definition argv_cached : Args :=
  mkArgs EmptyString EmptyString "adj.csv" (Some "A, B") "ranks.json" None 15%Z (1 # 2)%Q
         (Some "out.json") None (Some 1%Z) None.

Definition setup_AB : Setup :=
  mkSetup None [] (mkAdj nodes4 nodes4 path4)
          [("A", 0%Q); ("B", 0%Q); ("C", 0%Q); ("D", 0%Q)] ["A"; "B"].

(** No file at all. *)
Definition w_nothing : World := world [] ([], []).

(** Seeds on the command line, no table given: the defaults. *)
Definition argv_no_tables : Args :=
  mkArgs EmptyString EmptyString EmptyString (Some "A,B") EmptyString None 15%Z (1 # 2)%Q None None (Some 1%Z) None.

(** An adjacency file without any column. *)
Definition w_empty_graph : World := world ["adj.csv"] ([], []).

(** No seed specification, four workers. *)
Definition argv_pool4 : Args := args None (Some 4%Z).

Definition setup_empty : Setup := mkSetup None [] (mkAdj [] [] []) [] [].

(** The same graph, with a seed. *)
Definition argv_empty_seed : Args := args (Some "A") (Some 4%Z).

Definition setup_empty_seed : Setup := mkSetup None [] (mkAdj [] [] []) [] ["A"].

(** No seed specification: the seeds come from the measurements, the
    top three nodes of each patient, kept when in three quarters of the
    patients. *)
Definition argv_top3 : Args :=
  mkArgs "exp.csv" "ctl.csv" "adj.csv" None EmptyString None 3%Z (3 # 4)%Q
         None None (Some 1%Z) None.

(** The seed list A,A on the command line. *)
Definition argv_AA : Args := args (Some "A,A") (Some 1%Z).

(** A walk that answers with another node than the one it started
    from. *)
Definition walk_astray (n : string) (G : graph_dict) (adj : AdjFrame)
           (S_nodes : list string) (num_misses : np_float) (verbose : option Z)
  : rank_list * string :=
  ([(n, 1%Z)], "Z").

Definition w_astray : World :=
  mkWorld (fun p => existsb (String.eqb p) ["adj.csv"])
          (fun _ => patients) (fun _ => (nodes4, path4))
          (fun _ => []) (fun _ => []) (fun d _ => d) (fun _ => [])
          walk_astray bitstrings score (fun _ => (1 # 2)%Q).

End Toy.

(** ** Predicates used to state the properties *)

Module WinnerSpec.

(** The three masks of the script, as predicates on a labelled row. *)
Definition top_score (res : list Row) (x : nat * Row) : bool :=
  Np.eq_max Qeq_bool (Np.series_max Qle_bool (map d_score res)) (d_score (snd x)).

Definition longest (f : list (nat * Row)) (x : nat * Row) : bool :=
  Np.eq_max Nat.eqb (Np.series_max Nat.leb (str_len f))
            (String.length (optimalBS (snd x))).

Definition largest (f : list (nat * Row)) (x : nat * Row) : bool :=
  Np.eq_max Z.eqb (Np.series_max Z.leb (sizes f)) (subsetSize (snd x)).

(** What it is to be the winning row [F] at position [i] of [res]. *)
Record is_winner (res : list Row) (i : nat) (F : Row) : Prop := {
  win_at : nth_error res i = Some F;
  win_score : forall r, In r res -> (d_score r <= d_score F)%Q;
  win_length : forall r, In r res -> (d_score r == d_score F)%Q ->
               (String.length (optimalBS r) <= String.length (optimalBS F))%nat;
  win_size : forall r, In r res -> (d_score r == d_score F)%Q ->
             String.length (optimalBS r) = String.length (optimalBS F) ->
             (subsetSize r <= subsetSize F)%Z;
  win_first : forall j r, (j < i)%nat -> nth_error res j = Some r ->
              ~ ((d_score r == d_score F)%Q /\
                 String.length (optimalBS r) = String.length (optimalBS F) /\
                 subsetSize r = subsetSize F)
}.

End WinnerSpec.

(** ** Kinds of events *)

Definition is_to_csv (e : event) : bool :=
  match e with EvToCsv _ _ => true | _ => false end.

(** Ranking work: a call of the walk or a map over the pool. *)
Definition is_ranking (e : event) : bool :=
  match e with EvRank _ _ | EvPoolMap _ _ _ => true | _ => false end.

Definition is_score (e : event) : bool :=
  match e with EvScore _ _ => true | _ => false end.

(** The two JSON dumps at the end of a run. *)
Definition is_dump (e : event) : bool :=
  match e with EvDumpResult _ _ | EvDumpRanks _ _ => true | _ => false end.

(** Any file written. *)
Definition is_write (e : event) : bool := is_to_csv e || is_dump e.

(** The value [np.log2] was evaluated to, for the events that carry
    one. *)
Definition num_misses_of (e : event) : option np_float :=
  match e with
  | EvRank _ x | EvPoolMap _ x _ => Some x
  | _ => None
  end.

(** ** A run that reaches its report *)

(** The stages behind a report: the setup [st], the ranks [rk], the
    winning row [F_info] at position [ind_F] of the scorer's table, and
    the bitstring entry at the same position. *)
Record reached_report (w : World) (argv : Args) (st : Setup) (rk : ranks_dict)
       (ind_F : nat) (F_info : Row) (entry : rank_list) : Prop := {
  rr_setup : outcome (setup w argv) = inr st;
  rr_valid : forallb (fun n => Py.dict_mem n (st_G st)) (st_S st) = true;
  rr_ranks : outcome (collect_ranks w argv st) = inr rk;
  rr_winner : exists pvals pt_id,
      outcome (data_mx_pvals w argv st) = inr pvals /\
      outcome (pt_id_of pvals) = inr pt_id /\
      select_F (get_encoding_length w (get_pt_bs_by_k w (st_S st) rk) (st_G st)
                                    (pvals_T pvals) pt_id)
      = inr (ind_F, F_info);
  rr_entry : nth_error (get_pt_bs_by_k w (st_S st) rk) ind_F = Some entry
}.

(** The [--include_not_in_s] switch, a count that is absent or
    positive. *)
Definition includes_outside_S (argv : Args) : bool :=
  match include_not_in_s argv with
  | Some (S _) => true
  | _ => false
  end.

(** ** Counting *)

(** The count a counter holds for [x], 0 for a missing key. *)
Definition tally (d : list (string * nat)) (x : string) : nat :=
  match Py.dict_get x d with
  | Some c => c
  | None => O
  end.

(** One step of [Counter]. *)
Definition count_step (d : list (string * nat)) (x : string) : list (string * nat) :=
  Py.dict_set x (S (tally d x)) d.


(** ** Order and white space *)

(** Descending by value. *)
Definition desc (a b : string * Q) : Prop := (snd b <= snd a)%Q.

Definition all_space (s : string) : bool :=
  forallb Str.is_space (list_ascii_of_string s).

Definition first_char (s : string) : option ascii :=
  match s with
  | EmptyString => None
  | String c _ => Some c
  end.

Fixpoint last_char (s : string) : option ascii :=
  match s with
  | EmptyString => None
  | String c EmptyString => Some c
  | String _ s' => last_char s'
  end.

(** Neither end of [s] is white space. *)
Definition trimmed (s : string) : Prop :=
  (forall c, first_char s = Some c -> Str.is_space c = false) /\
  (forall c, last_char s = Some c -> Str.is_space c = false).

(** [idx] is the index of [df] sorted by the column [pt], largest value
    first. *)
Definition sorted_index (df : DataFrame) (pt : string) (idx : list string) : Prop :=
  exists vals sorted,
    Pd.column df pt = Some vals /\
    idx = map fst sorted /\
    Permutation sorted (combine (df_index df) vals) /\
    StronglySorted desc sorted.

(** The share of patients a node must be among the top of:
    [count >= patients * present_in_perc_for_s]. *)
Definition frequent_enough (argv : Args) (n_patients count : nat) : Prop :=
  (inject_Z (Z.of_nat n_patients) * present_in_perc_for_s argv
   <= inject_Z (Z.of_nat count))%Q.

(** ** The contract of the walk *)

(** Modelled from the spec: [graph.single_node_get_node_ranks] is not in
    the script.  Section 4.2 gives its output as "the rank list for n,
    paired with n itself": whatever the arguments, the second component
    of the result is the start node.  The function is pure (section 8),
    as every field of [World] is. *)
Definition echoes_start_node (w : World) : Prop :=
  forall n G adj S_nodes num_misses verbose,
    snd (single_node_get_node_ranks w n G adj S_nodes num_misses verbose) = n.

(** The same command line with another [--num_processes]. *)
Definition with_processes (argv : Args) (p : option Z) : Args :=
  mkArgs (experimental argv) (control argv) (adj_matrix argv) (s_module argv)
         (ranks argv) (include_not_in_s argv) (kmx argv)
         (present_in_perc_for_s argv) (output_name argv) (out_graph_name argv)
         p (verbose argv).

(** ** Further predicates and variations of a run *)

(** [old in s]: some suffix of [s] starts with [old]. *)
Fixpoint occurs (old s : string) : bool :=
  match s with
  | EmptyString => String.prefix old EmptyString
  | String _ s' => String.prefix old s || occurs old s'
  end.

(** The number of places at which the character [c] stands in [s]. *)
Fixpoint count_char (c : ascii) (s : string) : nat :=
  match s with
  | EmptyString => O
  | String c' s' => (if Ascii.eqb c' c then 1 else 0) + count_char c s'
  end.

(** The same world with one more file, a rank cache at [path] that
    holds [rk]. *)
Definition with_cache (w : World) (path : string) (rk : ranks_dict) : World :=
  mkWorld (fun p => String.eqb p path || path_exists w p)
          (read_csv_indexed w) (read_csv_adj w) (read_csv_columns w)
          (fun _ => rk)
          (surrogate_profiles w) (graphical_lasso_icov w)
          (single_node_get_node_ranks w) (get_pt_bs_by_k w)
          (get_encoding_length w) (norm_sf w).

(** The same command line with another [--ranks]. *)
Definition with_ranks (argv : Args) (path : string) : Args :=
  mkArgs (experimental argv) (control argv) (adj_matrix argv) (s_module argv)
         path (include_not_in_s argv) (kmx argv)
         (present_in_perc_for_s argv) (output_name argv) (out_graph_name argv)
         (num_processes argv) (verbose argv).

(** The paths whose existence a run asks for before it looks for the
    rank cache or after it: the three tables and the seed
    specification. *)
Definition input_paths (argv : Args) : list string :=
  experimental argv :: control argv :: adj_matrix argv ::
  match s_module argv with
  | Some spec => [spec]
  | None => []
  end.

(** The entry of a square table at row [i] and column [j], 0 outside. *)
Definition cell (m : list (list Q)) (i j : nat) : Q :=
  nth j (nth i m []) 0%Q.

(** ** More runs in the small world *)

Module Toy2.

(** A world whose graphical lasso answers with ones everywhere, the
    diagonal included. *)
Definition w_lasso : World :=
  mkWorld (fun p => existsb (String.eqb p) ["exp.csv"; "ctl.csv"])
          (fun _ => Toy.patients) (fun _ => ([], []))
          (fun _ => []) (fun _ => []) (fun d _ => d)
          (fun d => map (fun _ => map (fun _ => 1%Q) (df_index d)) (df_index d))
          Toy.walk Toy.bitstrings Toy.score (fun _ => (1 # 2)%Q).

(** Measurements given, the network inferred, seeds A and B. *)
Definition argv_lasso : Args :=
  mkArgs "exp.csv" "ctl.csv" EmptyString (Some "A,B") EmptyString None 15%Z (1 # 2)%Q
         (Some "res") (Some "graph.csv") (Some 1%Z) None.

Definition setup_lasso : Setup :=
  mkSetup (Some Toy.patients) ["p1"; "p2"]
          (mkAdj Toy.nodes4 Toy.nodes4
                 [[0; 1; 1; 1]; [1; 0; 1; 1]; [1; 1; 0; 1]; [1; 1; 1; 0]]%Q)
          [("A", 0%Q); ("B", 0%Q); ("C", 0%Q); ("D", 0%Q)] ["A"; "B"].

(** Only the measurements are there, not the controls. *)
Definition w_no_control : World := Toy.world ["exp.csv"] ([], []).

(** No worker at all. *)
Definition argv_pool0 : Args := Toy.args (Some "A,B") (Some 0%Z).

(** The adjacency file is given, and a name for the graph as well. *)
Definition argv_graph_name : Args :=
  mkArgs EmptyString EmptyString "adj.csv" (Some "A,B") EmptyString None 15%Z (1 # 2)%Q
         None (Some "graph.csv") (Some 1%Z) None.

(** The switch --include_not_in_s given once. *)
Definition argv_include : Args :=
  mkArgs EmptyString EmptyString "adj.csv" None EmptyString (Some 1%nat)
         15%Z (1 # 2)%Q None None None None.

(** A bitstring entry: A and B are in S, C between them is not. *)
Definition entry_ACB : rank_list := [("A", 1%Z); ("C", 0%Z); ("B", 1%Z)].

(** Measurements, controls and the adjacency file are all there. *)
Definition w_full : World :=
  Toy.world ["exp.csv"; "ctl.csv"; "adj.csv"] (Toy.nodes4, Toy.path4).

Definition argv_full : Args :=
  mkArgs "exp.csv" "ctl.csv" "adj.csv" (Some "A,B") EmptyString None 15%Z (1 # 2)%Q
         None None (Some 1%Z) None.

Definition setup_full : Setup :=
  mkSetup (Some Toy.patients) ["p1"; "p2"] (mkAdj Toy.nodes4 Toy.nodes4 Toy.path4)
          [("A", 0%Q); ("B", 0%Q); ("C", 0%Q); ("D", 0%Q)] ["A"; "B"].

(** The ranks the loop finds for the seeds A and B on the path graph. *)
Definition ranks_AB : ranks_dict :=
  [("A", [("A", 1%Z); ("B", 1%Z); ("C", 0%Z); ("D", 0%Z)]);
   ("B", [("B", 1%Z); ("A", 1%Z); ("C", 0%Z); ("D", 0%Z)])].

(** The p-values of the two patients over the four nodes, as the
    small world's [norm_sf] gives them. *)
Definition pvals_full : pvals_arg :=
  PvalFrame (mkDF ["p1"; "p2"] Toy.nodes4
                  [[2 # 2; 2 # 2; 2 # 2; 2 # 2]; [2 # 2; 2 # 2; 2 # 2; 2 # 2]]%Q).

End Toy2.

(** * Properties *)

(** ** numpy / pandas primitives *)

Section MaxFacts.

Context {A : Type} (leb : A -> A -> bool).
Hypothesis leb_total : forall x y, leb x y = true \/ leb y x = true.
Hypothesis leb_trans : forall x y z, leb x y = true -> leb y z = true -> leb x z = true.

Lemma fold_max_spec (t : list A) (x : A) :
  let r := fold_left (fun m y => if leb m y then y else m) t x in
  (r = x \/ In r t) /\ leb x r = true /\ forall y, In y t -> leb y r = true.
Proof.
  revert x. induction t as [|a t IH]; intros x; cbn.
  - split; [now left|]. split; [destruct (leb_total x x); assumption|].
    intros y [].
  - destruct (IH (if leb x a then a else x)) as (Hin & Hle & Hall).
    assert (Hx : leb x (if leb x a then a else x) = true).
    { destruct (leb x a) eqn:E; auto.
      destruct (leb_total x x); assumption. }
    assert (Ha : leb a (if leb x a then a else x) = true).
    { destruct (leb x a) eqn:E.
      - destruct (leb_total a a); assumption.
      - destruct (leb_total x a) as [H|H]; congruence. }
    split; [|split].
    + destruct Hin as [Hin|Hin]; auto.
      rewrite Hin. destruct (leb x a); auto.
    + eapply leb_trans; eauto.
    + intros y [<-|Hy]; [eapply leb_trans; eauto | auto].
Qed.

Lemma series_max_spec (s : list A) (m : A) :
  Np.series_max leb s = Some m ->
  In m s /\ forall x, In x s -> leb x m = true.
Proof.
  destruct s as [|x t]; cbn; [discriminate|].
  intros [= <-]. destruct (fold_max_spec t x) as (Hin & Hle & Hall).
  split; [destruct Hin as [->|]; auto|].
  intros y [<-|Hy]; auto.
Qed.

Lemma series_max_some (s : list A) :
  s <> [] -> exists m, Np.series_max leb s = Some m.
Proof. destruct s; [congruence|]. intros _. cbn. eauto. Qed.

End MaxFacts.

Lemma where_from_iloc {A : Type} (p : A -> bool) (pre f : list A) :
  Np.iloc (pre ++ f) (Np.where_from (List.length pre) (map p f)) = filter p f.
Proof.
  revert pre. induction f as [|x f IH]; intros pre; cbn; [reflexivity|].
  specialize (IH (pre ++ [x])).
  rewrite <- app_assoc, length_app, Nat.add_comm in IH. cbn in IH.
  destruct (p x); cbn; [|exact IH].
  rewrite nth_error_app2, Nat.sub_diag by lia. cbn.
  unfold Np.iloc in IH. rewrite IH. reflexivity.
Qed.

(** Masking a frame by a predicate of its own rows is filtering it. *)
Lemma iloc_where {A : Type} (p : A -> bool) (f : list A) :
  Np.iloc f (Np.where_ (map p f)) = filter p f.
Proof. exact (where_from_iloc p [] f). Qed.

Lemma range_index_snd {A : Type} (l : list A) : map snd (range_index l) = l.
Proof.
  unfold range_index. generalize 0%nat.
  induction l as [|x l IH]; intros n; cbn; [reflexivity|].
  now rewrite IH.
Qed.

Lemma range_index_nth {A : Type} (l : list A) (i : nat) (x : A) :
  In (i, x) (range_index l) -> nth_error l i = Some x.
Proof.
  unfold range_index.
  assert (H : forall n, In (i, x) (combine (seq n (List.length l)) l) ->
                        (n <= i)%nat /\ nth_error l (i - n) = Some x).
  { induction l as [|y l IH]; intros n; cbn; [intros []|].
    intros [[= <- <-]|Hin].
    - rewrite Nat.sub_diag. auto.
    - destruct (IH _ Hin) as (Hle & Hn). split; [lia|].
      replace (i - n)%nat with (S (i - S n)) by lia. exact Hn. }
  intros Hin. destruct (H _ Hin) as (_ & Hn). now rewrite Nat.sub_0_r in Hn.
Qed.

(** The labels of a default index grow along the frame. *)
Lemma range_index_split {A : Type} (l : list A) (l1 l2 : list (nat * A)) (i : nat) (x : A) :
  range_index l = l1 ++ (i, x) :: l2 ->
  forall j y, (j < i)%nat -> nth_error l j = Some y -> In (j, y) l1.
Proof.
  unfold range_index.
  assert (H : forall n l1,
             combine (seq n (List.length l)) l = l1 ++ (i, x) :: l2 ->
             forall j y, (n <= j < i)%nat -> nth_error l (j - n) = Some y -> In (j, y) l1).
  { induction l as [|z l IH]; intros n l1' E j y Hj Hn.
    - destruct l1'; discriminate.
    - cbn in E. destruct l1' as [|c l1'].
      + cbn in E. injection E as E1 E2 E3. lia.
      + cbn in E. injection E as E1 E2. subst c.
        destruct (Nat.eq_dec j n) as [->|Hne].
        * rewrite Nat.sub_diag in Hn. cbn in Hn. injection Hn as ->. now left.
        * right. apply (IH (S n) l1' E2 j y); [lia|].
          replace (j - n)%nat with (S (j - S n)) in Hn by lia. exact Hn. }
  intros E j y Hj Hn. apply (H 0%nat l1 E j y); [lia|]. now rewrite Nat.sub_0_r.
Qed.

Lemma filter_head_split {A : Type} (p : A -> bool) (l : list A) (x : A) (t : list A) :
  filter p l = x :: t ->
  exists l1 l2, l = l1 ++ x :: l2 /\ p x = true /\ forall y, In y l1 -> p y = false.
Proof.
  induction l as [|a l IH]; cbn; [discriminate|].
  destruct (p a) eqn:E.
  - intros [= -> <-]. exists [], l. repeat split; auto. intros y [].
  - intros H. destruct (IH H) as (l1 & l2 & -> & Hx & Hl1).
    exists (a :: l1), l2. repeat split; auto.
    intros y [<-|Hy]; auto.
Qed.

Lemma filter_filter {A : Type} (p q : A -> bool) (l : list A) :
  filter p (filter q l) = filter (fun x => q x && p x) l.
Proof.
  induction l as [|a l IH]; cbn; [reflexivity|].
  destruct (q a); cbn; [destruct (p a)|]; now rewrite IH.
Qed.

(** ** The winner *)

Module Winner.

Import WinnerSpec.

Lemma Qle_bool_total (x y : Q) : Qle_bool x y = true \/ Qle_bool y x = true.
Proof.
  rewrite !Qle_bool_iff. destruct (Qlt_le_dec x y) as [H|H]; auto.
  left. now apply Qlt_le_weak.
Qed.

Lemma Qle_bool_trans (x y z : Q) :
  Qle_bool x y = true -> Qle_bool y z = true -> Qle_bool x z = true.
Proof. rewrite !Qle_bool_iff. apply Qle_trans. Qed.

Lemma Nat_leb_total (x y : nat) : Nat.leb x y = true \/ Nat.leb y x = true.
Proof. rewrite !Nat.leb_le. lia. Qed.

Lemma Nat_leb_trans (x y z : nat) :
  Nat.leb x y = true -> Nat.leb y z = true -> Nat.leb x z = true.
Proof. rewrite !Nat.leb_le. lia. Qed.

Lemma Z_leb_total (x y : Z) : Z.leb x y = true \/ Z.leb y x = true.
Proof. rewrite !Z.leb_le. lia. Qed.

Lemma Z_leb_trans (x y z : Z) :
  Z.leb x y = true -> Z.leb y z = true -> Z.leb x z = true.
Proof. rewrite !Z.leb_le. lia. Qed.

Lemma highest_is_filter (res : list Row) :
  highest_dscore_paths res = filter (top_score res) (range_index res).
Proof.
  unfold highest_dscore_paths, ind_mx.
  rewrite <- (range_index_snd res) at 2.
  rewrite map_map. apply iloc_where.
Qed.

Lemma longest_is_filter (res : list Row) :
  ind_F_longest res =
  filter (longest (highest_dscore_paths res)) (highest_dscore_paths res).
Proof.
  unfold ind_F_longest, str_len. rewrite map_map. apply iloc_where.
Qed.

Lemma largest_is_filter (res : list Row) :
  ind_F_largest res = filter (largest (ind_F_longest res)) (ind_F_longest res).
Proof.
  unfold ind_F_largest, sizes. rewrite map_map. apply iloc_where.
Qed.

End Winner.

Section MaxFilter.

Context {A B : Type} (leb eqb : A -> A -> bool) (g : B -> A).
Hypothesis leb_total : forall x y, leb x y = true \/ leb y x = true.
Hypothesis leb_trans : forall x y z, leb x y = true -> leb y z = true -> leb x z = true.
Hypothesis eqb_refl : forall x, eqb x x = true.

(** Keeping the rows whose key equals the maximum key of a non-empty
    frame leaves a non-empty frame, whose rows carry a key above all
    others. *)
Lemma max_filter_spec (f : list B) :
  f <> [] ->
  exists m,
    Np.series_max leb (map g f) = Some m /\
    filter (fun x => Np.eq_max eqb (Np.series_max leb (map g f)) (g x)) f <> [] /\
    (forall y, In y f -> leb (g y) m = true) /\
    (forall y, In y (filter (fun x => Np.eq_max eqb (Np.series_max leb (map g f)) (g x)) f)
               <-> In y f /\ eqb (g y) m = true).
Proof.
  intros Hne.
  destruct (series_max_some leb (map g f)) as (m & Hm).
  { destruct f; [congruence|discriminate]. }
  destruct (series_max_spec leb leb_total leb_trans _ _ Hm) as (Hin & Hall).
  exists m. rewrite Hm. cbn [Np.eq_max]. split; [reflexivity|]. split; [|split].
  - apply in_map_iff in Hin. destruct Hin as (x & Hx & Hxf).
    intros E. assert (Hi : In x (filter (fun x0 => eqb (g x0) m) f)).
    { apply filter_In. split; auto. rewrite Hx. apply eqb_refl. }
    rewrite E in Hi. exact Hi.
  - intros y Hy. apply Hall. now apply in_map.
  - intros y. apply filter_In.
Qed.

End MaxFilter.

Lemma range_index_in {A : Type} (l : list A) (x : A) :
  In x l -> exists i, In (i, x) (range_index l).
Proof.
  intros H. rewrite <- (range_index_snd l) in H.
  apply in_map_iff in H. destruct H as ((i & y) & E & H). cbn in E. subst y.
  now exists i.
Qed.

Module WinnerFacts.

Import WinnerSpec Winner.

Lemma Qeq_bool_refl (x : Q) : Qeq_bool x x = true.
Proof. apply Qeq_bool_iff. reflexivity. Qed.

(** The script's selection on a non-empty table gives a winner, and the
    winner is the first row among those of largest size among those of
    longest bitstring among those of highest score. *)
Lemma select_F_winner (r0 : Row) (rest : list Row) :
  exists i F, select_F (r0 :: rest) = inr (i, F) /\ is_winner (r0 :: rest) i F.
Proof.
  set (res := r0 :: rest).
  assert (Hres : range_index res <> []) by (unfold range_index; cbn; discriminate).
  (* stage 1 *)
  destruct (max_filter_spec Qle_bool Qeq_bool (fun x : nat * Row => d_score (snd x))
              Qle_bool_total Qle_bool_trans Qeq_bool_refl (range_index res) Hres)
    as (m1 & Hm1 & Hne1 & Hle1 & Hin1).
  rewrite <- map_map, range_index_snd in Hm1, Hne1, Hin1.
  change (fun x : nat * Row =>
            Np.eq_max Qeq_bool (Np.series_max Qle_bool (map d_score res)) (d_score (snd x)))
    with (top_score res) in Hne1, Hin1.
  rewrite <- highest_is_filter in Hne1, Hin1.
  (* stage 2 *)
  destruct (max_filter_spec Nat.leb Nat.eqb
              (fun x : nat * Row => String.length (optimalBS (snd x)))
              Nat_leb_total Nat_leb_trans Nat.eqb_refl (highest_dscore_paths res) Hne1)
    as (m2 & Hm2 & Hne2 & Hle2 & Hin2).
  change (map (fun x : nat * Row => String.length (optimalBS (snd x))) (highest_dscore_paths res))
    with (str_len (highest_dscore_paths res)) in Hm2, Hne2, Hin2.
  change (fun x : nat * Row =>
            Np.eq_max Nat.eqb (Np.series_max Nat.leb (str_len (highest_dscore_paths res)))
                      (String.length (optimalBS (snd x))))
    with (longest (highest_dscore_paths res)) in Hne2, Hin2.
  rewrite <- longest_is_filter in Hne2, Hin2.
  (* stage 3 *)
  destruct (max_filter_spec Z.leb Z.eqb (fun x : nat * Row => subsetSize (snd x))
              Z_leb_total Z_leb_trans Z.eqb_refl (ind_F_longest res) Hne2)
    as (m3 & Hm3 & Hne3 & Hle3 & Hin3).
  change (map (fun x : nat * Row => subsetSize (snd x)) (ind_F_longest res))
    with (sizes (ind_F_longest res)) in Hm3, Hne3, Hin3.
  change (fun x : nat * Row =>
            Np.eq_max Z.eqb (Np.series_max Z.leb (sizes (ind_F_longest res)))
                      (subsetSize (snd x)))
    with (largest (ind_F_longest res)) in Hne3, Hin3.
  rewrite <- largest_is_filter in Hne3, Hin3.
  (* the head of what is left *)
  destruct (ind_F_largest res) as [|(i, F) tl] eqn:E3; [congruence|].
  assert (HF3 : In (i, F) ((i, F) :: tl)) by now left.
  apply Hin3 in HF3. destruct HF3 as (HF2 & Hs3).
  pose proof HF2 as HF2'. apply Hin2 in HF2'. destruct HF2' as (HF1 & Hs2).
  pose proof HF1 as HF1'. apply Hin1 in HF1'. destruct HF1' as (HF0 & Hs1).
  cbn [snd] in Hs1, Hs2, Hs3.
  apply Qeq_bool_iff in Hs1. apply Nat.eqb_eq in Hs2. apply Z.eqb_eq in Hs3.
  pose proof (range_index_nth _ _ _ HF0) as Hnth.
  exists i, F. split.
  { unfold select_F. fold res. rewrite E3, Hnth. reflexivity. }
  assert (In1 : forall j r, In (j, r) (range_index res) -> (d_score r == d_score F)%Q ->
                            In (j, r) (highest_dscore_paths res)).
  { intros j r Hj Hd. apply Hin1. split; auto. cbn.
    apply Qeq_bool_iff. now rewrite Hd. }
  assert (In2 : forall j r, In (j, r) (range_index res) -> (d_score r == d_score F)%Q ->
                            String.length (optimalBS r) = String.length (optimalBS F) ->
                            In (j, r) (ind_F_longest res)).
  { intros j r Hj Hd Hl. apply Hin2. split; auto. cbn.
    apply Nat.eqb_eq. congruence. }
  constructor.
  - exact Hnth.
  - intros r Hr. destruct (range_index_in _ _ Hr) as (j & Hj).
    specialize (Hle1 _ Hj). cbn in Hle1. apply Qle_bool_iff in Hle1.
    now rewrite Hs1.
  - intros r Hr Hd. destruct (range_index_in _ _ Hr) as (j & Hj).
    specialize (Hle2 _ (In1 _ _ Hj Hd)). cbn in Hle2. apply Nat.leb_le in Hle2. lia.
  - intros r Hr Hd Hl. destruct (range_index_in _ _ Hr) as (j & Hj).
    specialize (Hle3 _ (In2 _ _ Hj Hd Hl)). cbn in Hle3. apply Z.leb_le in Hle3. lia.
  - intros j r Hj Hr (Hd & Hl & Hs).
    assert (Eall : ind_F_largest res =
                   filter (fun x => (top_score res x && longest (highest_dscore_paths res) x)
                                    && largest (ind_F_longest res) x)
                          (range_index res)).
    { rewrite <- (filter_filter (largest (ind_F_longest res))
                                (fun x => top_score res x && longest (highest_dscore_paths res) x)).
      rewrite <- (filter_filter (longest (highest_dscore_paths res)) (top_score res)).
      rewrite <- highest_is_filter, <- longest_is_filter. apply largest_is_filter. }
    rewrite Eall in E3.
    apply filter_head_split in E3. destruct E3 as (l1 & l2 & Esplit & _ & Hl1).
    pose proof (range_index_split _ _ _ _ _ Esplit j r Hj Hr) as Hin.
    specialize (Hl1 _ Hin). cbn beta in Hl1.
    assert (Hj0 : In (j, r) (range_index res)).
    { rewrite Esplit. apply in_or_app. now left. }
    assert (Ht : top_score res (j, r) = true).
    { unfold top_score. rewrite Hm1. cbn. apply Qeq_bool_iff. now rewrite Hd. }
    assert (Hlg : longest (highest_dscore_paths res) (j, r) = true).
    { unfold longest. rewrite Hm2. cbn. apply Nat.eqb_eq. congruence. }
    assert (Hlz : largest (ind_F_longest res) (j, r) = true).
    { unfold largest. rewrite Hm3. cbn. apply Z.eqb_eq. congruence. }
    rewrite Ht, Hlg, Hlz in Hl1. discriminate.
Qed.

End WinnerFacts.

Module WinnerUnique.

Import WinnerSpec.

(** The characterisation leaves no choice: a table has one winner. *)
Lemma is_winner_unique (res : list Row) (i j : nat) (F F' : Row) :
  is_winner res i F -> is_winner res j F' -> i = j /\ F = F'.
Proof.
  intros [Hi Hs Hl Hz Hf] [Hi' Hs' Hl' Hz' Hf'].
  pose proof (nth_error_In _ _ Hi) as HF.
  pose proof (nth_error_In _ _ Hi') as HF'.
  assert (Ed : (d_score F == d_score F')%Q).
  { apply Qle_antisym; auto. }
  assert (El : String.length (optimalBS F) = String.length (optimalBS F')).
  { apply Nat.le_antisymm; [apply Hl' | apply Hl]; auto. now symmetry. }
  assert (Ez : subsetSize F = subsetSize F').
  { apply Z.le_antisymm; [apply Hz' | apply Hz]; auto. now symmetry. }
  assert (Eij : i = j).
  { destruct (Nat.lt_trichotomy i j) as [Hlt|[Heq|Hgt]]; auto; exfalso.
    - apply (Hf' i F Hlt Hi). auto.
    - apply (Hf j F' Hgt Hi'). repeat split; now symmetry. }
  split; [exact Eij|]. subst j. congruence.
Qed.

Lemma two_rows_longer_wins (d : Q) (s5 s7 : Z) :
  is_winner [mkRow "10110" s5 d; mkRow "1011010" s7 d] 1 (mkRow "1011010" s7 d) /\
  is_winner [mkRow "1011010" s7 d; mkRow "10110" s5 d] 0 (mkRow "1011010" s7 d).
Proof.
  split; constructor; cbn.
  - reflexivity.
  - intros r [<-|[<-|[]]]; cbn; apply Qle_refl.
  - intros r [<-|[<-|[]]] _; cbn; lia.
  - intros r [<-|[<-|[]]] _; cbn; intros; [discriminate|lia].
  - intros j r Hj Hr (_ & Hlen & _).
    destruct j as [|j]; [|lia]. cbn in Hr. injection Hr as <-. cbn in Hlen. discriminate.
  - reflexivity.
  - intros r [<-|[<-|[]]]; cbn; apply Qle_refl.
  - intros r [<-|[<-|[]]] _; cbn; lia.
  - intros r [<-|[<-|[]]] _; cbn; intros; [lia|discriminate].
  - intros j r Hj. lia.
Qed.

(** Ties broken in turn: the score leaves rows 1 to 4, the length rows
    2 to 4, the size rows 3 and 4, the order row 3. *)
Example select_F_ties :
  select_F [mkRow "1" 1 (1 # 2); mkRow "11" 2 (3 # 2); mkRow "111" 2 (6 # 4);
            mkRow "101" 3 (3 # 2); mkRow "110" 3 (3 # 2)]
  = inr (3%nat, mkRow "101" 3 (3 # 2)).
Proof. reflexivity. Qed.

Example select_F_empty : select_F [] = inl IndexError.
Proof. reflexivity. Qed.

End WinnerUnique.

(** C1.  On every non-empty result table the script's selection returns
    a winner: a row of highest d.score, of longest optimalBS among those,
    of largest subsetSize among those, and the first such row of the
    table; no other row qualifies.  In particular, of two rows with the
    same d.score, one with optimalBS "10110" and one with "1011010", the
    7-bit row wins, whatever the order of the rows and their sizes. *)
Theorem C1_winner_selection :
  (forall (r0 : Row) (rest : list Row),
      exists i F,
        select_F (r0 :: rest) = inr (i, F) /\
        WinnerSpec.is_winner (r0 :: rest) i F /\
        forall j F', WinnerSpec.is_winner (r0 :: rest) j F' -> j = i /\ F' = F) /\
  (forall (d : Q) (s5 s7 : Z),
      select_F [mkRow "10110" s5 d; mkRow "1011010" s7 d]
      = inr (1%nat, mkRow "1011010" s7 d) /\
      select_F [mkRow "1011010" s7 d; mkRow "10110" s5 d]
      = inr (0%nat, mkRow "1011010" s7 d)).
Proof.
  split.
  - intros r0 rest.
    destruct (WinnerFacts.select_F_winner r0 rest) as (i & F & Hsel & Hwin).
    exists i, F. split; [exact Hsel|]. split; [exact Hwin|].
    intros j F' Hw'.
    destruct (WinnerUnique.is_winner_unique _ _ _ _ _ Hwin Hw') as (-> & ->). auto.
  - intros d s5 s7.
    destruct (WinnerUnique.two_rows_longer_wins d s5 s7) as (H1 & H2).
    split.
    + destruct (WinnerFacts.select_F_winner (mkRow "10110" s5 d) [mkRow "1011010" s7 d])
        as (i & F & Hsel & Hwin).
      destruct (WinnerUnique.is_winner_unique _ _ _ _ _ Hwin H1) as (-> & ->).
      exact Hsel.
    + destruct (WinnerFacts.select_F_winner (mkRow "1011010" s7 d) [mkRow "10110" s5 d])
        as (i & F & Hsel & Hwin).
      destruct (WinnerUnique.is_winner_unique _ _ _ _ _ Hwin H2) as (-> & ->).
      exact Hsel.
Qed.

(** ** Python dicts *)

Module DictFacts.

Lemma get_set {V : Type} (k k' : string) (v : V) (d : list (string * V)) :
  Py.dict_get k (Py.dict_set k' v d) =
  if String.eqb k k' then Some v else Py.dict_get k d.
Proof.
  induction d as [|(k0, v0) d IH]; cbn.
  - reflexivity.
  - destruct (String.eqb k' k0) eqn:E; cbn.
    + apply String.eqb_eq in E. subst k0. destruct (String.eqb k k'); reflexivity.
    + destruct (String.eqb k k0) eqn:E0.
      * apply String.eqb_eq in E0. subst k0.
        rewrite String.eqb_sym in E. now rewrite E.
      * exact IH.
Qed.

Lemma keys_set {V : Type} (k k' : string) (v : V) (d : list (string * V)) :
  In k (Py.dict_keys (Py.dict_set k' v d)) <-> k = k' \/ In k (Py.dict_keys d).
Proof.
  unfold Py.dict_keys. induction d as [|(k0, v0) d IH]; cbn.
  - intuition.
  - destruct (String.eqb k' k0) eqn:E; cbn.
    + apply String.eqb_eq in E. subst k0. intuition.
    + rewrite IH. intuition.
Qed.

Lemma keys_set_NoDup {V : Type} (k : string) (v : V) (d : list (string * V)) :
  NoDup (Py.dict_keys d) -> NoDup (Py.dict_keys (Py.dict_set k v d)).
Proof.
  unfold Py.dict_keys. induction d as [|(k0, v0) d IH]; cbn; intros H.
  - constructor; [intros []|constructor].
  - inversion H as [|x l Hx Hl]; subst.
    destruct (String.eqb k k0) eqn:E; cbn.
    + constructor; auto.
    + constructor; [|auto]. intros Hin.
      apply (keys_set k0 k v d) in Hin. destruct Hin as [->|Hin]; [|auto].
      rewrite String.eqb_refl in E. discriminate.
Qed.

Lemma get_In {V : Type} (k : string) (v : V) (d : list (string * V)) :
  NoDup (Py.dict_keys d) -> In (k, v) d -> Py.dict_get k d = Some v.
Proof.
  unfold Py.dict_keys. induction d as [|(k0, v0) d IH]; cbn; intros Hn Hin; [destruct Hin|].
  inversion Hn as [|x l Hx Hl]; subst.
  destruct Hin as [[= -> ->]|Hin].
  - now rewrite String.eqb_refl.
  - destruct (String.eqb k k0) eqn:E; [|auto].
    apply String.eqb_eq in E. subst k0. exfalso. apply Hx.
    apply in_map_iff. now exists (k, v).
Qed.

Lemma get_Some_In {V : Type} (k : string) (v : V) (d : list (string * V)) :
  Py.dict_get k d = Some v -> In (k, v) d.
Proof.
  induction d as [|(k0, v0) d IH]; cbn; [discriminate|].
  destruct (String.eqb k k0) eqn:E.
  - apply String.eqb_eq in E. subst k0. intros [= ->]. now left.
  - intros H. right. auto.
Qed.

Lemma get_None {V : Type} (k : string) (d : list (string * V)) :
  Py.dict_get k d = None <-> ~ In k (Py.dict_keys d).
Proof.
  unfold Py.dict_keys. induction d as [|(k0, v0) d IH]; cbn.
  - intuition.
  - destruct (String.eqb k k0) eqn:E.
    + apply String.eqb_eq in E. subst k0. split; [discriminate|]. intros H. exfalso. auto.
    + apply String.eqb_neq in E. rewrite IH. intuition.
Qed.

End DictFacts.

(** ** [Counter] *)

Module CounterFacts.

Import DictFacts.

Lemma fold_count (l : list string) (d : list (string * nat)) (x : string) :
  tally (fold_left count_step l d) x = (tally d x + count_occ string_dec l x)%nat.
Proof.
  revert d. induction l as [|y l IH]; intros d; cbn [fold_left count_occ]; [lia|].
  rewrite IH. unfold count_step at 1. unfold tally at 1. rewrite get_set.
  destruct (string_dec y x) as [->|Hne].
  - rewrite String.eqb_refl. unfold tally. lia.
  - destruct (String.eqb x y) eqn:E.
    + apply String.eqb_eq in E. congruence.
    + fold (tally d x). lia.
Qed.

Lemma fold_keys (l : list string) (d : list (string * nat)) (x : string) :
  In x (Py.dict_keys (fold_left count_step l d)) <-> In x (Py.dict_keys d) \/ In x l.
Proof.
  revert d. induction l as [|y l IH]; intros d; cbn [fold_left In]; [intuition|].
  rewrite IH. unfold count_step. rewrite keys_set. intuition.
Qed.

Lemma fold_NoDup (l : list string) (d : list (string * nat)) :
  NoDup (Py.dict_keys d) -> NoDup (Py.dict_keys (fold_left count_step l d)).
Proof.
  revert d. induction l as [|y l IH]; intros d H; cbn [fold_left]; [exact H|].
  apply IH. now apply keys_set_NoDup.
Qed.

Lemma Counter_unfold (l : list string) : Counter l = fold_left count_step l [].
Proof. reflexivity. Qed.

(** The keys of a counter are the elements counted, each once, and each
    is kept with the number of its occurrences. *)
Lemma Counter_spec (l : list string) :
  NoDup (Py.dict_keys (Counter l)) /\
  forall x c, In (x, c) (Counter l) <-> In x l /\ c = count_occ string_dec l x.
Proof.
  rewrite Counter_unfold.
  assert (Hn : NoDup (Py.dict_keys (fold_left count_step l []))).
  { apply fold_NoDup. constructor. }
  split; [exact Hn|]. intros x c.
  pose proof (fold_count l [] x) as Hc. cbn in Hc.
  pose proof (fold_keys l [] x) as Hk. cbn in Hk.
  split.
  - intros Hin. split.
    + assert (Hx : In x (Py.dict_keys (fold_left count_step l []))).
      { apply in_map_iff. now exists (x, c). }
      apply Hk in Hx. destruct Hx as [[]|Hx]. exact Hx.
    + apply (get_In _ _ _ Hn) in Hin. unfold tally in Hc. rewrite Hin in Hc. exact Hc.
  - intros (Hin & ->).
    destruct (Py.dict_get x (fold_left count_step l [])) as [c|] eqn:E.
    + unfold tally in Hc. rewrite E in Hc. subst c. now apply get_Some_In.
    + exfalso. apply get_None in E. apply E, Hk. now right.
Qed.

End CounterFacts.

(** ** Sorting *)

Module SortFacts.

Lemma insert_desc_perm (x : string * Q) (l : list (string * Q)) :
  Permutation (Pd.insert_desc x l) (x :: l).
Proof.
  induction l as [|y l IH]; cbn; [reflexivity|].
  destruct (Qle_bool (snd y) (snd x)); [reflexivity|].
  rewrite IH. apply perm_swap.
Qed.

Lemma sort_desc_perm (l : list (string * Q)) : Permutation (Pd.sort_desc l) l.
Proof.
  induction l as [|x l IH]; cbn; [reflexivity|].
  rewrite insert_desc_perm. now constructor.
Qed.

Lemma insert_desc_sorted (x : string * Q) (l : list (string * Q)) :
  Sorted desc l -> Sorted desc (Pd.insert_desc x l).
Proof.
  induction l as [|y l IH]; cbn; intros Hs.
  - repeat constructor.
  - destruct (Qle_bool (snd y) (snd x)) eqn:E.
    + constructor; [exact Hs|]. constructor. now apply Qle_bool_iff.
    + inversion Hs as [|y' l' Hl Hhd]; subst.
      assert (Hyx : desc y x).
      { unfold desc. destruct (Qlt_le_dec (snd x) (snd y)) as [H|H].
        - now apply Qlt_le_weak.
        - apply Qle_bool_iff in H. congruence. }
      constructor; [auto|].
      destruct l as [|z l]; cbn.
      * now constructor.
      * destruct (Qle_bool (snd z) (snd x)); constructor; auto.
        now inversion Hhd.
Qed.

Lemma sort_desc_sorted (l : list (string * Q)) : Sorted desc (Pd.sort_desc l).
Proof.
  induction l as [|x l IH]; cbn; [constructor|]. now apply insert_desc_sorted.
Qed.

Lemma desc_trans : Relations_1.Transitive desc.
Proof. intros a b c Hab Hbc. unfold desc in *. eapply Qle_trans; eauto. Qed.

(** The index after [sort_values]: the rows in an order in which every
    value is at least the values after it; on a table with one label per
    row, all the labels. *)
Lemma sort_values_desc_index_spec (df : DataFrame) (col : string) (idx : list string) :
  Pd.sort_values_desc_index df col = Some idx ->
  exists vals sorted,
    Pd.column df col = Some vals /\
    idx = map fst sorted /\
    Permutation sorted (combine (df_index df) vals) /\
    StronglySorted desc sorted /\
    (List.length (df_values df) = List.length (df_index df) ->
     Permutation idx (df_index df)).
Proof.
  unfold Pd.sort_values_desc_index.
  destruct (Pd.column df col) as [vals|] eqn:E; [|discriminate].
  intros [= <-]. exists vals, (Pd.sort_desc (combine (df_index df) vals)).
  split; [reflexivity|]. split; [reflexivity|].
  split; [apply sort_desc_perm|]. split.
  - apply Sorted_StronglySorted; [exact desc_trans|apply sort_desc_sorted].
  - intros Hlen. rewrite sort_desc_perm.
    assert (Hv : List.length vals = List.length (df_index df)).
    { unfold Pd.column in E. destruct (Pd.index_of col (df_columns df)); [|discriminate].
      injection E as <-. now rewrite length_map. }
    clear E. revert vals Hv. generalize (df_index df).
    induction l as [|a l IH]; intros [|v vals] Hv; cbn in *; try discriminate; auto.
Qed.

Example sort_two_patients :
  Pd.sort_values_desc_index Toy.patients "p1" = Some ["A"; "B"; "C"; "D"] /\
  Pd.sort_values_desc_index Toy.patients "p2" = Some ["B"; "A"; "D"; "C"] /\
  Pd.sort_values_desc_index Toy.patients "p3" = None.
Proof. repeat split; reflexivity. Qed.

End SortFacts.

(** ** Strings *)

Module StrFacts.

Lemma split_nonempty (sep : ascii) (s : string) : Str.split sep s <> [].
Proof.
  destruct s as [|c s]; cbn; [discriminate|].
  destruct (Ascii.eqb c sep); [discriminate|].
  destruct (Str.split sep s); discriminate.
Qed.

(** Joining the fields with the separator gives the string back. *)
Lemma split_concat (sep : ascii) (s : string) :
  String.concat (String sep EmptyString) (Str.split sep s) = s.
Proof.
  induction s as [|c s IH]; cbn; [reflexivity|].
  destruct (Ascii.eqb c sep) eqn:E.
  - apply Ascii.eqb_eq in E. subst c.
    destruct (Str.split sep s) as [|h t] eqn:Es; [now apply split_nonempty in Es|].
    cbn [String.concat]. cbn. now rewrite <- IH.
  - destruct (Str.split sep s) as [|h t] eqn:Es; [now apply split_nonempty in Es|].
    destruct t as [|h' t]; cbn in *; now rewrite <- IH.
Qed.

(** No field holds the separator. *)
Lemma split_no_sep (sep : ascii) (s : string) :
  Forall (fun p => ~ In sep (list_ascii_of_string p)) (Str.split sep s).
Proof.
  induction s as [|c s IH]; cbn.
  - constructor; [intros []|constructor].
  - destruct (Ascii.eqb c sep) eqn:E.
    + constructor; [intros []|exact IH].
    + destruct (Str.split sep s) as [|h t]; cbn.
      * constructor; [|constructor]. cbn. intros [->|[]].
        rewrite Ascii.eqb_refl in E. discriminate.
      * inversion IH as [|h' t' Hh Ht]; subst. constructor; [|exact Ht].
        cbn. intros [->|Hin]; [|auto].
        rewrite Ascii.eqb_refl in E. discriminate.
Qed.

Lemma lstrip_spec (s : string) :
  exists l, s = (l ++ Str.lstrip s)%string /\ all_space l = true /\
            forall c, first_char (Str.lstrip s) = Some c -> Str.is_space c = false.
Proof.
  induction s as [|c s (l & El & Hl & Hf)]; cbn.
  - exists EmptyString. repeat split. discriminate.
  - destruct (Str.is_space c) eqn:E.
    + exists (String c l). cbn. split; [now rewrite <- El|].
      split; [|exact Hf]. unfold all_space in *. cbn. now rewrite E.
    + exists EmptyString. repeat split. cbn. now intros c' [= <-].
Qed.

Lemma rstrip_spec (s : string) :
  exists r, s = (Str.rstrip s ++ r)%string /\ all_space r = true /\
            forall c, last_char (Str.rstrip s) = Some c -> Str.is_space c = false.
Proof.
  induction s as [|c s (r & Er & Hr & Hf)]; cbn.
  - exists EmptyString. repeat split. discriminate.
  - destruct (Str.rstrip s) as [|c' s'] eqn:E.
    + destruct (Str.is_space c) eqn:Ec.
      * exists (String c r). cbn in Er. split; [now rewrite <- Er|].
        split; [|discriminate]. unfold all_space in *. cbn. now rewrite Ec.
      * exists r. cbn in *. split; [now rewrite <- Er|]. split; [exact Hr|].
        now intros c0 [= <-].
    + exists r. split; [cbn in Er |- *; f_equal; exact Er|]. split; [exact Hr|].
      exact Hf.
Qed.

Lemma rstrip_first (s : string) (c : ascii) :
  first_char (Str.rstrip s) = Some c -> first_char s = Some c.
Proof.
  destruct s as [|c0 s]; cbn; [discriminate|].
  destruct (Str.rstrip s); [destruct (Str.is_space c0); [discriminate|]|]; auto.
Qed.

(** [strip] takes white space, and only white space, off both ends. *)
Lemma strip_spec (s : string) :
  exists l r, s = (l ++ Str.strip s ++ r)%string /\
              all_space l = true /\ all_space r = true /\ trimmed (Str.strip s).
Proof.
  unfold Str.strip.
  destruct (lstrip_spec s) as (l & El & Hl & Hf).
  destruct (rstrip_spec (Str.lstrip s)) as (r & Er & Hr & Hlast).
  exists l, r. split; [now rewrite <- Er|]. split; [exact Hl|]. split; [exact Hr|].
  split; [|exact Hlast]. intros c Hc. apply Hf. now apply rstrip_first.
Qed.

Example split_strip_seeds :
  map Str.strip (Str.split ","%char " A ,B,, C D ") = ["A"; "B"; EmptyString; "C D"].
Proof. reflexivity. Qed.

Example replace_every_csv :
  Str.replace "csv" "json" (Str.basename "data/csv/adj_csv.csv") = "adj_json.json".
Proof. reflexivity. Qed.

Example ranks_name_of_json :
  Str.replace ".json" "_ranks.json" "adj.json" = "adj_ranks.json".
Proof. reflexivity. Qed.

End StrFacts.

(** ** The run monad *)

Lemma bind_inl {A B : Type} (m : M A) (k : A -> M B) (e : failure) :
  outcome m = inl e -> bind m k = (trace m, inl e).
Proof. destruct m as (t, [e'|x]); cbn; congruence. Qed.

Lemma bind_inr {A B : Type} (m : M A) (k : A -> M B) (x : A) :
  outcome m = inr x -> bind m k = (trace m ++ trace (k x), outcome (k x)).
Proof. destruct m as (t, [e'|x']); cbn; [discriminate|]. now intros [= ->]. Qed.

Lemma bind_Forall {A B : Type} (P : event -> Prop) (m : M A) (k : A -> M B) :
  Forall P (trace m) -> (forall x, Forall P (trace (k x))) ->
  Forall P (trace (bind m k)).
Proof.
  intros Hm Hk. destruct m as (t, [e|x]); cbn in *; auto.
  apply Forall_app. split; auto. apply Hk.
Qed.

Lemma bind_success {A B : Type} (m : M A) (k : A -> M B) (y : B) :
  outcome (bind m k) = inr y ->
  exists x, outcome m = inr x /\ outcome (k x) = inr y /\
            trace (bind m k) = trace m ++ trace (k x).
Proof.
  destruct m as (t, [e|x]); cbn; [discriminate|].
  intros H. exists x. auto.
Qed.

Lemma lift_trace {A : Type} (r : failure + A) : trace (lift r) = [].
Proof. reflexivity. Qed.

(** ** Stages of the script *)

Section Stages.

Variable w : World.
Variable argv : Args.

Lemma read_experimental_trace : trace (read_experimental w argv) = [].
Proof.
  unfold read_experimental.
  destruct (path_exists w (experimental argv)); [|reflexivity].
  destruct (path_exists w (control argv)); reflexivity.
Qed.

Lemma read_adjacency_trace (df : option DataFrame) :
  Forall (fun e => is_to_csv e = true) (trace (read_adjacency w argv df)).
Proof.
  unfold read_adjacency.
  destruct (path_exists w (adj_matrix argv)).
  - destruct (read_csv_adj w (adj_matrix argv)) as (c, v).
    destruct (Nat.eqb _ _); constructor.
  - destruct df as [df|]; [|constructor].
    destruct (Nat.eqb _ _); [|constructor].
    destruct (out_graph_name argv) as [name|]; cbn; [|constructor].
    destruct (negb (String.eqb name EmptyString)); cbn; repeat constructor.
Qed.

(** The only file the run can write before the seeds are chosen is the
    inferred adjacency table. *)
Lemma setup_trace : Forall (fun e => is_to_csv e = true) (trace (setup w argv)).
Proof.
  unfold setup. apply bind_Forall.
  - rewrite read_experimental_trace. constructor.
  - intros (df, tp). apply bind_Forall; [apply read_adjacency_trace|].
    intros adj. apply bind_Forall; [constructor|]. intros S_nodes. constructor.
Qed.

Lemma validate_trace (G : graph_dict) (S_nodes : list string) :
  trace (validate G S_nodes) = [].
Proof.
  induction S_nodes as [|n S_nodes IH]; cbn; [reflexivity|].
  destruct (Py.dict_mem n G); [exact IH|reflexivity].
Qed.

Lemma validate_pass (G : graph_dict) (S_nodes : list string) :
  forallb (fun n => Py.dict_mem n G) S_nodes = true ->
  validate G S_nodes = ([], inr tt).
Proof.
  induction S_nodes as [|n S_nodes IH]; cbn; [reflexivity|].
  destruct (Py.dict_mem n G); cbn; [exact IH|discriminate].
Qed.

Lemma validate_abort (G : graph_dict) (S_nodes : list string) :
  forallb (fun n => Py.dict_mem n G) S_nodes = false ->
  validate G S_nodes = ([], inl (Exit 1)).
Proof.
  induction S_nodes as [|n S_nodes IH]; cbn; [discriminate|].
  destruct (Py.dict_mem n G); cbn; [exact IH|reflexivity].
Qed.

Lemma rank_events_trace (x : np_float) (seeds : list string) :
  fold_right (fun node k => emit (EvRank node x) ;; k)%run (ret tt) seeds
  = (map (fun node => EvRank node x) seeds, inr tt).
Proof.
  induction seeds as [|n seeds IH]; cbn [fold_right map]; [reflexivity|].
  rewrite IH. reflexivity.
Qed.

Lemma collect_ranks_trace (st : Setup) :
  Forall (fun e => is_ranking e = true) (trace (collect_ranks w argv st)).
Proof.
  unfold collect_ranks.
  destruct (path_exists w (ranks argv)); [constructor|].
  assert (Hpool : forall p,
             Forall (fun e => is_ranking e = true)
                    (trace (Pool p ;;
                            emit (EvPoolMap p (np_log2 (List.length (st_G st))) (st_S st)) ;;
                            ret (gather (ranks_collection w argv st (st_S st)) []))%run)).
  { intros p. destruct p as [n|]; cbn; [destruct (n <? 1)%Z; cbn|]; repeat constructor. }
  destruct (num_processes argv) as [[|[p|p|]|p]|]; try apply Hpool.
  rewrite rank_events_trace. cbn. rewrite app_nil_r.
  apply Forall_forall. intros e He. apply in_map_iff in He.
  destruct He as (n & <- & _). reflexivity.
Qed.

(** The three ways the last stage can end. *)
Lemma score_and_report_cases (st : Setup) (rk : ranks_dict) :
  (exists e, score_and_report w argv st rk = ([], inl e)) \/
  (exists pvals pt_id,
      data_mx_pvals w argv st = ([], inr pvals) /\
      pt_id_of pvals = ([], inr pt_id) /\
      let bs := get_pt_bs_by_k w (st_S st) rk in
      let res := get_encoding_length w bs (st_G st) (pvals_T pvals) pt_id in
      (exists e, score_and_report w argv st rk = ([EvScore (pvals_T pvals) pt_id], inl e)) \/
      (exists ind_F F_info entry,
          select_F res = inr (ind_F, F_info) /\
          nth_error bs ind_F = Some entry /\
          score_and_report w argv st rk =
          ([EvScore (pvals_T pvals) pt_id;
            EvDumpResult (outfname argv)
              (mkOut (st_S st) (Fs argv entry) (p_value_F F_info)
                     (kmcm_probability F_info) (optimalBS F_info)
                     (List.length (st_G st)));
            EvDumpRanks (outrname argv) rk], inr tt))).
Proof.
  unfold score_and_report.
  assert (Hd : (exists e, data_mx_pvals w argv st = ([], inl e)) \/
               (exists p, data_mx_pvals w argv st = ([], inr p))).
  { unfold data_mx_pvals. destruct (path_exists w (experimental argv)).
    - destruct (st_experimental_df st) as [df|]; [|left; eexists; reflexivity].
      destruct (Pd.select_columns df (st_target_patients st));
        [right|left]; eexists; reflexivity.
    - right. eexists. reflexivity. }
  destruct Hd as [(e & Hd)|(pvals & Hd)]; rewrite Hd.
  { left. exists e. reflexivity. }
  assert (Hp : (exists e, pt_id_of pvals = ([], inl e)) \/
               (exists p, pt_id_of pvals = ([], inr p))).
  { destruct pvals as [df|a]; cbn.
    - destruct (df_columns df); [left|right]; eexists; reflexivity.
    - right. eexists. reflexivity. }
  destruct Hp as [(e & Hp)|(pt_id & Hp)].
  { left. exists e. cbn. rewrite Hp. reflexivity. }
  right. exists pvals, pt_id. split; [reflexivity|]. split; [exact Hp|].
  cbn. rewrite Hp. cbn.
  destruct (select_F _) as [e|(ind_F, F_info)] eqn:Esel; cbn.
  { left. exists e. reflexivity. }
  destruct (nth_error _ ind_F) as [entry|] eqn:Eentry; cbn.
  - right. exists ind_F, F_info, entry. auto.
  - left. exists IndexError. reflexivity.
Qed.

(** How a whole run unfolds. *)
Lemma main_cases :
  (exists e, outcome (setup w argv) = inl e /\
             main w argv = (trace (setup w argv), inl e)) \/
  (exists st, outcome (setup w argv) = inr st /\
     ((forallb (fun n => Py.dict_mem n (st_G st)) (st_S st) = false /\
       main w argv = (trace (setup w argv), inl (Exit 1))) \/
      (forallb (fun n => Py.dict_mem n (st_G st)) (st_S st) = true /\
       ((exists e, outcome (collect_ranks w argv st) = inl e /\
                   main w argv =
                   (trace (setup w argv) ++ trace (collect_ranks w argv st), inl e)) \/
        (exists rk, outcome (collect_ranks w argv st) = inr rk /\
                    main w argv =
                    (trace (setup w argv) ++ trace (collect_ranks w argv st)
                       ++ trace (score_and_report w argv st rk),
                     outcome (score_and_report w argv st rk))))))).
Proof.
  unfold main.
  destruct (outcome (setup w argv)) as [e|st] eqn:Es.
  { left. exists e. split; [reflexivity|]. now apply bind_inl. }
  right. exists st. split; [reflexivity|].
  rewrite (bind_inr _ _ _ Es).
  destruct (forallb (fun n => Py.dict_mem n (st_G st)) (st_S st)) eqn:Ev.
  - right. split; [reflexivity|].
    rewrite (validate_pass _ _ Ev). cbn [bind fst snd app].
    destruct (outcome (collect_ranks w argv st)) as [e|rk] eqn:Ec.
    + left. exists e. split; [reflexivity|].
      rewrite (bind_inl _ _ _ Ec). reflexivity.
    + right. exists rk. split; [reflexivity|].
      rewrite (bind_inr _ _ _ Ec). reflexivity.
  - left. split; [reflexivity|].
    rewrite (validate_abort _ _ Ev). cbn. now rewrite app_nil_r.
Qed.

End Stages.

(** ** The report *)

Section Report.

Variable w : World.
Variable argv : Args.

Lemma Forall_not_in (P : event -> bool) (e : event) (l : list event) :
  Forall (fun x => P x = true) l -> P e = false -> ~ In e l.
Proof.
  intros HF He Hin. rewrite Forall_forall in HF. specialize (HF _ Hin). congruence.
Qed.

(** An event that is neither a table written nor ranking work comes
    from the last stage, with everything before it done. *)
Lemma late_event (e : event) :
  is_to_csv e = false -> is_ranking e = false ->
  In e (trace (main w argv)) ->
  exists st rk,
    outcome (setup w argv) = inr st /\
    forallb (fun n => Py.dict_mem n (st_G st)) (st_S st) = true /\
    outcome (collect_ranks w argv st) = inr rk /\
    In e (trace (score_and_report w argv st rk)).
Proof.
  intros Hcsv Hrank Hin.
  assert (Hs : ~ In e (trace (setup w argv))).
  { apply (Forall_not_in is_to_csv); [apply setup_trace|exact Hcsv]. }
  assert (Hc : forall st, ~ In e (trace (collect_ranks w argv st))).
  { intros st. apply (Forall_not_in is_ranking); [apply collect_ranks_trace|exact Hrank]. }
  destruct (main_cases w argv)
    as [(x & _ & Em)|(st & Est & [(_ & Em)|(Hv & [(x & _ & Em)|(rk & Erk & Em)])])];
    rewrite Em in Hin; cbn [trace fst] in Hin.
  - contradiction.
  - contradiction.
  - apply in_app_or in Hin. destruct Hin as [Hin|Hin]; [contradiction|].
    now apply Hc in Hin.
  - apply in_app_or in Hin. destruct Hin as [Hin|Hin]; [contradiction|].
    apply in_app_or in Hin. destruct Hin as [Hin|Hin]; [now apply Hc in Hin|].
    exists st, rk. auto.
Qed.

(** A result dump in the trace of a run is the report of its winner. *)
Lemma main_report (path : string) (out : OutDict) :
  In (EvDumpResult path out) (trace (main w argv)) ->
  exists st rk ind_F F_info entry,
    reached_report w argv st rk ind_F F_info entry /\
    path = outfname argv /\
    out = mkOut (st_S st) (Fs argv entry) (p_value_F F_info)
                (kmcm_probability F_info) (optimalBS F_info)
                (List.length (st_G st)).
Proof.
  intros Hin.
  destruct (late_event (EvDumpResult path out) eq_refl eq_refl Hin) as (st & rk & Est & Hv & Erk & Hlate).
  destruct (score_and_report_cases w argv st rk)
    as [(e & E)|(pvals & pt_id & Hd & Hp & [(e & E)|(i & F & entry & Hsel & Hent & E)])];
    rewrite E in Hlate; cbn in Hlate.
  - destruct Hlate.
  - destruct Hlate as [Hin'|[]]. discriminate.
  - destruct Hlate as [Hin'|[Hin'|[Hin'|[]]]]; try discriminate.
    injection Hin' as <- <-.
    exists st, rk, i, F, entry. split; [|split; reflexivity].
    constructor; auto.
    exists pvals, pt_id. rewrite Hd, Hp. auto.
Qed.

End Report.

(** ** Powers of two *)

Module Pow2.

Local Open Scope R_scope.

Lemma pos (x : R) : 0 < Rpower 2 x.
Proof. unfold Rpower. apply exp_pos. Qed.

Lemma at_most_one (x : R) : x <= 0 -> Rpower 2 x <= 1.
Proof.
  intros H. rewrite <- (Rpower_O 2) by lra.
  apply Rle_Rpower; lra.
Qed.

Lemma above_one (x : R) : 0 < x -> 1 < Rpower 2 x.
Proof.
  intros H. rewrite <- (Rpower_O 2) by lra.
  apply Rpower_lt; lra.
Qed.

(** A negative whole exponent: the power is the inverse of a power of
    two. *)
Lemma neg_nat (n : nat) : Rpower 2 (IZR (-1 * Z.of_nat n)) = / 2 ^ n.
Proof.
  replace (-1 * Z.of_nat n)%Z with (- Z.of_nat n)%Z by lia.
  rewrite opp_IZR, <- INR_IZR_INZ, Rpower_Ropp, Rpower_pow by lra.
  reflexivity.
Qed.

Lemma Q2R_sign (q : Q) :
  ((0 <= q)%Q -> 0 <= Q2R q) /\ ((q < 0)%Q -> Q2R q < 0).
Proof.
  split; intros H.
  - apply Qle_Rle in H. now rewrite RMicromega.Q2R_0 in H.
  - apply Qlt_Rlt in H. now rewrite RMicromega.Q2R_0 in H.
Qed.

End Pow2.

(** ** Runs in the small world *)

Lemma toy_run_AB :
  main Toy.w_adj Toy.argv_AB =
  ([EvRank "A" (log2_of 4); EvRank "B" (log2_of 4);
    EvScore (PvalArray [[0%Q]]) None;
    EvDumpResult "adj.json" Toy.out_AB;
    EvDumpRanks "adj_ranks.json"
      [("A", [("A", 1%Z); ("B", 1%Z); ("C", 0%Z); ("D", 0%Z)]);
       ("B", [("B", 1%Z); ("A", 1%Z); ("C", 0%Z); ("D", 0%Z)])]],
   inr tt).
Proof. reflexivity. Qed.

Lemma toy_run_AB_result :
  In (EvDumpResult "adj.json" Toy.out_AB) (trace (main Toy.w_adj Toy.argv_AB)).
Proof. rewrite toy_run_AB. cbn. auto. Defined.

(** ** The reported figures *)





(** ** The discovered subset *)

Lemma Fs_filter (argv : Args) (entry : rank_list) :
  Fs argv entry =
  map fst (filter (fun d => Z.eqb (snd d) 1
                            || (includes_outside_S argv && Z.eqb (snd d) 0)) entry).
Proof.
  unfold Fs, keep_nodes, includes_outside_S. f_equal. apply filter_ext. intros (n, b). cbn.
  destruct (include_not_in_s argv) as [[|k]|]; cbn;
    destruct (Z.eqb b 1) eqn:E1, (Z.eqb b 0) eqn:E0; cbn; try reflexivity;
    apply Z.eqb_eq in E1; apply Z.eqb_eq in E0; lia.
Qed.

Lemma Fs_In (argv : Args) (entry : rank_list) (n : string) :
  In n (Fs argv entry) <->
  exists bit, In (n, bit) entry /\
              (bit = 1%Z \/ (includes_outside_S argv = true /\ bit = 0%Z)).
Proof.
  rewrite Fs_filter, in_map_iff. split.
  - intros ((n', b) & E & H). cbn in E. subst n'. apply filter_In in H.
    destruct H as (H & Hb). exists b. split; [exact H|]. cbn in Hb.
    apply orb_true_iff in Hb. destruct Hb as [Hb|Hb].
    + left. now apply Z.eqb_eq.
    + right. apply andb_true_iff in Hb. destruct Hb as (Hi & Hb).
      split; [exact Hi|]. now apply Z.eqb_eq.
  - intros (b & H & Hb). exists (n, b). split; [reflexivity|].
    apply filter_In. split; [exact H|]. cbn.
    destruct Hb as [->|(-> & ->)]; reflexivity.
Qed.

Example Fs_with_and_without :
  Fs Toy.argv_AB [("A", 1%Z); ("C", 0%Z); ("B", 1%Z); ("D", 0%Z)] = ["A"; "B"] /\
  Fs (mkArgs EmptyString EmptyString "adj.csv" None EmptyString (Some 1%nat)
             15%Z (1 # 2)%Q None None None None)
     [("A", 1%Z); ("C", 0%Z); ("B", 1%Z); ("D", 0%Z)] = ["A"; "C"; "B"; "D"].
Proof. split; reflexivity. Qed.

(** C4.  The subset F of every result a run reports holds, in their
    order, the nodes of the winning bitstring entry whose membership bit
    is 1, and with the include switch set those whose bit is 0 as well;
    no other node is in it. *)
Theorem C4_discovered_subset (w : World) (argv : Args) (path : string) (out : OutDict) :
  In (EvDumpResult path out) (trace (main w argv)) ->
  exists st rk ind_F F_info entry,
    reached_report w argv st rk ind_F F_info entry /\
    out_F_most_connected_nodes out =
    map fst (filter (fun d => Z.eqb (snd d) 1
                              || (includes_outside_S argv && Z.eqb (snd d) 0)) entry) /\
    (forall n, In n (out_F_most_connected_nodes out) <->
               exists bit, In (n, bit) entry /\
                           (bit = 1%Z \/ (includes_outside_S argv = true /\ bit = 0%Z))).
Proof.
  intros Hin.
  destruct (main_report w argv path out Hin) as (st & rk & i & F & entry & Hr & _ & ->).
  exists st, rk, i, F, entry. split; [exact Hr|].
  cbn [out_F_most_connected_nodes]. split; [apply Fs_filter|apply Fs_In].
Qed.

Lemma C4_discovered_subset_witness :
  exists st rk ind_F F_info entry,
    reached_report Toy.w_adj Toy.argv_AB st rk ind_F F_info entry /\
    out_F_most_connected_nodes Toy.out_AB =
    map fst (filter (fun d => Z.eqb (snd d) 1
                              || (includes_outside_S Toy.argv_AB && Z.eqb (snd d) 0)) entry) /\
    (forall n, In n (out_F_most_connected_nodes Toy.out_AB) <->
               exists bit, In (n, bit) entry /\
                           (bit = 1%Z \/ (includes_outside_S Toy.argv_AB = true /\ bit = 0%Z))).
Proof.
  apply (C4_discovered_subset Toy.w_adj Toy.argv_AB "adj.json" Toy.out_AB).
  exact toy_run_AB_result.
Defined.

(** ** Seed validation *)

Lemma dict_mem_keys {V : Type} (k : string) (d : list (string * V)) :
  Py.dict_mem k d = true <-> In k (Py.dict_keys d).
Proof.
  unfold Py.dict_mem, Py.dict_keys. rewrite existsb_exists. split.
  - intros (x & Hx & E). apply String.eqb_eq in E. now subst.
  - intros H. exists k. split; [exact H|apply String.eqb_refl].
Qed.

Lemma all_seeds_known (G : graph_dict) (S_nodes : list string) :
  forallb (fun n => Py.dict_mem n G) S_nodes = true <->
  forall n, In n S_nodes -> In n (Py.dict_keys G).
Proof.
  rewrite forallb_forall. split; intros H n Hn; apply dict_mem_keys; auto.
Qed.

Lemma some_seed_unknown (G : graph_dict) (S_nodes : list string) :
  (exists n, In n S_nodes /\ ~ In n (Py.dict_keys G)) ->
  forallb (fun n => Py.dict_mem n G) S_nodes = false.
Proof.
  intros (n & Hn & Hno).
  destruct (forallb _ S_nodes) eqn:E; [|reflexivity].
  exfalso. apply Hno. now apply (proj1 (all_seeds_known G S_nodes) E).
Qed.

Section Validation.

Variable w : World.
Variable argv : Args.

(** Whatever the setup has written is the inferred adjacency table,
    under the name given with [--out_graph_name]. *)
Lemma setup_writes (e : event) :
  In e (trace (setup w argv)) ->
  exists name adj, e = EvToCsv name adj /\ out_graph_name argv = Some name /\
                   path_exists w (adj_matrix argv) = false.
Proof.
  unfold setup. intros Hin.
  destruct (read_experimental w argv) as (t0, [e0|(df, tp)]) eqn:E0;
    pose proof (read_experimental_trace w argv) as Ht0; rewrite E0 in Ht0;
    cbn in Ht0; subst t0; cbn in Hin; [destruct Hin|].
  assert (Ha : forall e', In e' (trace (read_adjacency w argv df)) ->
                          exists name adj, e' = EvToCsv name adj /\
                                           out_graph_name argv = Some name /\
                                           path_exists w (adj_matrix argv) = false).
  { unfold read_adjacency. destruct (path_exists w (adj_matrix argv)).
    - destruct (read_csv_adj w (adj_matrix argv)) as (c, v).
      destruct (Nat.eqb _ _); intros e' [].
    - destruct df as [d|]; [|intros e' []].
      destruct (Nat.eqb _ _); [|intros e' []].
      destruct (out_graph_name argv) as [name|]; cbn; [|intros e' []].
      destruct (negb (String.eqb name EmptyString)); cbn; intros e' H; [|destruct H].
      destruct H as [<-|[]]. eauto. }
  destruct (read_adjacency w argv df) as (t1, [e1|adj]); cbn in Hin, Ha.
  - auto.
  - destruct (S_perturbed_nodes w argv df tp) as [e2|S_nodes]; cbn in Hin;
      rewrite ?app_nil_r in Hin; auto.
Qed.

Lemma trace_sequential (st : Setup) :
  path_exists w (ranks argv) = false -> num_processes argv = Some 1%Z ->
  collect_ranks w argv st =
  (map (fun n => EvRank n (np_log2 (List.length (st_G st)))) (st_S st),
   inr (ranks_loop w argv st (st_S st) [])).
Proof.
  intros Hc Hp. unfold collect_ranks. rewrite Hc, Hp, rank_events_trace.
  cbn. now rewrite app_nil_r.
Qed.

Lemma trace_pool (st : Setup) :
  path_exists w (ranks argv) = false -> num_processes argv <> Some 1%Z ->
  (forall n, num_processes argv = Some n -> (1 <= n)%Z) ->
  collect_ranks w argv st =
  ([EvPoolMap (num_processes argv) (np_log2 (List.length (st_G st))) (st_S st)],
   inr (gather (ranks_collection w argv st (st_S st)) [])).
Proof.
  intros Hc Hp Hn. unfold collect_ranks. rewrite Hc.
  destruct (num_processes argv) as [n|] eqn:E.
  - specialize (Hn n eq_refl).
    assert (Hlt : (n <? 1)%Z = false) by (apply Z.ltb_ge; lia).
    destruct n as [|[p|p|]|p]; try congruence; cbn; try reflexivity; lia.
  - reflexivity.
Qed.

Lemma trace_cached (st : Setup) :
  path_exists w (ranks argv) = true ->
  collect_ranks w argv st = ([], inr (json_load w (ranks argv))).
Proof. intros Hc. unfold collect_ranks. now rewrite Hc. Qed.

End Validation.

(** C3 (as the script has it).  Once the seeds are chosen: if one of
    them is not a key of G the run exits with status 1 having done no
    ranking, no scoring and neither JSON dump; all it can have written
    is the inferred adjacency table, under the name given with
    --out_graph_name.  If all are keys of G the check passes silently
    and the run goes on with the ranking stage: the cache is loaded, or
    every seed is ranked in turn by the loop, or the seeds are mapped
    over the pool. *)
Theorem C3_seed_validation (w : World) (argv : Args) (st : Setup) :
  outcome (setup w argv) = inr st ->
  ((exists n, In n (st_S st) /\ ~ In n (Py.dict_keys (st_G st))) ->
   outcome (main w argv) = inl (Exit 1) /\
   Forall (fun e => is_ranking e = false /\ is_score e = false /\ is_dump e = false)
          (trace (main w argv)) /\
   (forall e, In e (trace (main w argv)) ->
              exists name adj, e = EvToCsv name adj /\
                               out_graph_name argv = Some name /\
                               path_exists w (adj_matrix argv) = false)) /\
  ((forall n, In n (st_S st) -> In n (Py.dict_keys (st_G st))) ->
   validate (st_G st) (st_S st) = ([], inr tt) /\
   main w argv =
   (trace (setup w argv) ++
      trace (rk <- collect_ranks w argv st ;; score_and_report w argv st rk)%run,
    outcome (rk <- collect_ranks w argv st ;; score_and_report w argv st rk)%run) /\
   (path_exists w (ranks argv) = true ->
    trace (collect_ranks w argv st) = []) /\
   (path_exists w (ranks argv) = false -> num_processes argv = Some 1%Z ->
    trace (collect_ranks w argv st) =
    map (fun n => EvRank n (np_log2 (List.length (st_G st)))) (st_S st)) /\
   (path_exists w (ranks argv) = false -> num_processes argv <> Some 1%Z ->
    (forall n, num_processes argv = Some n -> (1 <= n)%Z) ->
    trace (collect_ranks w argv st) =
    [EvPoolMap (num_processes argv) (np_log2 (List.length (st_G st))) (st_S st)])).
Proof.
  intros Hs. split.
  - intros Hbad. apply some_seed_unknown in Hbad.
    assert (Em : main w argv = (trace (setup w argv), inl (Exit 1))).
    { unfold main. rewrite (bind_inr _ _ _ Hs), (validate_abort _ _ Hbad).
      cbn. now rewrite app_nil_r. }
    rewrite Em. cbn [outcome trace fst snd]. split; [reflexivity|]. split.
    + apply Forall_forall. intros e He.
      destruct (setup_writes w argv e He) as (name & adj & -> & _). auto.
    + apply setup_writes.
  - intros Hok. apply all_seeds_known in Hok.
    split; [now apply validate_pass|]. split.
    + unfold main. rewrite (bind_inr _ _ _ Hs), (validate_pass _ _ Hok). reflexivity.
    + split; [|split].
      * intros Hc. now rewrite trace_cached.
      * intros Hc Hp. now rewrite trace_sequential.
      * intros Hc Hp Hn. now rewrite trace_pool.
Qed.

Lemma C3_seed_validation_witness :
  outcome (main Toy.w_adj Toy.argv_AX) = inl (Exit 1) /\
  Forall (fun e => is_ranking e = false /\ is_score e = false /\ is_dump e = false)
         (trace (main Toy.w_adj Toy.argv_AX)) /\
  (forall e, In e (trace (main Toy.w_adj Toy.argv_AX)) ->
             exists name adj, e = EvToCsv name adj /\
                              out_graph_name Toy.argv_AX = Some name /\
                              path_exists Toy.w_adj (adj_matrix Toy.argv_AX) = false).
Proof.
  refine (proj1 (C3_seed_validation Toy.w_adj Toy.argv_AX Toy.setup_AX eq_refl) _).
  exists "X". split; [cbn; auto|].
  cbn. intros [H|[H|[H|[H|[]]]]]; discriminate H.
Defined.

(** The claim as it stands fails: with the network inferred and
    --out_graph_name given, a run whose seed X is not in the graph exits
    with status 1 after it has written the adjacency table. *)
Lemma C3_counterexample_partial_output :
  (exists st, outcome (setup Toy.w_inferred Toy.argv_inferred_X) = inr st /\
              exists n, In n (st_S st) /\ ~ In n (Py.dict_keys (st_G st))) /\
  outcome (main Toy.w_inferred Toy.argv_inferred_X) = inl (Exit 1) /\
  ~ Forall (fun e => is_write e = false) (trace (main Toy.w_inferred Toy.argv_inferred_X)).
Proof.
  split; [|split].
  - eexists. split; [reflexivity|]. exists "X". split; [cbn; auto|].
    cbn. intros [H|[H|[H|[H|[]]]]]; discriminate H.
  - reflexivity.
  - intros H. cbn in H. inversion H as [|e l He Hl]. discriminate He.
Qed.

(** ** Seed selection *)

Section Seeds.

Variable w : World.
Variable argv : Args.

Lemma top_nodes_spec (df : option DataFrame) (tp : list string) (S_set : list string) :
  top_nodes argv df tp = inr S_set ->
  exists idxs,
    Forall2 (fun pt idx => exists d, df = Some d /\ sorted_index d pt idx) tp idxs /\
    S_set = flat_map (Py.slice_to (kmx argv)) idxs.
Proof.
  revert S_set. induction tp as [|pt tp IH]; cbn; intros S_set.
  - intros [= <-]. exists []. split; [constructor|reflexivity].
  - destruct df as [d|]; [|discriminate].
    destruct (Pd.sort_values_desc_index d pt) as [idx|] eqn:E; [|discriminate].
    destruct (top_nodes argv (Some d) tp) as [e|S_rest]; [discriminate|].
    intros [= <-]. destruct (IH S_rest eq_refl) as (idxs & HF & ->).
    exists (idx :: idxs). split; [|reflexivity].
    constructor; [|exact HF]. exists d. split; [reflexivity|].
    destruct (SortFacts.sort_values_desc_index_spec d pt idx E)
      as (vals & sorted & Hc & Hi & Hp & Hs & _).
    now exists vals, sorted.
Qed.

Lemma filter_keys_NoDup {V : Type} (keep : string * V -> bool) (d : list (string * V)) :
  NoDup (Py.dict_keys d) -> NoDup (Py.dict_keys (filter keep d)).
Proof.
  unfold Py.dict_keys. induction d as [|(k, v) d IH]; cbn; intros Hd; [constructor|].
  apply NoDup_cons_iff in Hd. destruct Hd as (Hk & Hd).
  destruct (keep (k, v)); cbn; [|auto].
  apply NoDup_cons; [|auto]. intros Hin. apply Hk.
  apply in_map_iff in Hin. destruct Hin as (kv & Ekv & Hkv).
  apply filter_In in Hkv. apply in_map_iff. exists kv. tauto.
Qed.

(** The nodes kept are the nodes of [S_set] that occur often enough,
    each once. *)
Lemma frequent_nodes_spec (S_set : list string) (n_patients : nat) :
  NoDup (frequent_nodes argv S_set n_patients) /\
  forall n, In n (frequent_nodes argv S_set n_patients) <->
            In n S_set /\
            frequent_enough argv n_patients (count_occ string_dec S_set n).
Proof.
  destruct (CounterFacts.Counter_spec S_set) as (Hn & Hc).
  unfold frequent_nodes. split.
  - apply filter_keys_NoDup. exact Hn.
  - intros n. rewrite in_map_iff. unfold frequent_enough. split.
    + intros ((n', c) & E & Hin). cbn in E. subst n'.
      apply filter_In in Hin. destruct Hin as (Hin & Hq). cbn in Hq.
      apply Hc in Hin. destruct Hin as (Hin & ->).
      split; [exact Hin|]. now apply Qle_bool_iff.
    + intros (Hin & Hq). exists (n, count_occ string_dec S_set n).
      split; [reflexivity|]. apply filter_In. split.
      * apply Hc. auto.
      * cbn. now apply Qle_bool_iff.
Qed.

Lemma truthy_Some (spec : string) :
  Py.truthy (Some spec) = true <-> spec <> EmptyString.
Proof.
  cbn. rewrite negb_true_iff. apply String.eqb_neq.
Qed.

End Seeds.



(** The run of the small world on its measurements: per patient the
    three nodes of largest value, then the nodes among them for both
    patients. *)
Example toy_top_nodes :
  top_nodes Toy.argv_top3 (Some Toy.patients) ["p1"; "p2"]
  = inr ["A"; "B"; "C"; "B"; "A"; "D"] /\
  S_perturbed_nodes Toy.w_inferred Toy.argv_top3 (Some Toy.patients) ["p1"; "p2"]
  = inr ["A"; "B"].
Proof. split; reflexivity. Qed.


(** ** One worker or many *)

Section Workers.

Variable w : World.
Variable argv : Args.
Variable st : Setup.

Lemma ranker_processes (p : option Z) (n : string) :
  ranker w (with_processes argv p) st n = ranker w argv st n.
Proof. reflexivity. Qed.

Lemma ranks_loop_processes (p : option Z) (todo : list string) (rk : ranks_dict) :
  ranks_loop w (with_processes argv p) st todo rk = ranks_loop w argv st todo rk.
Proof. revert rk. induction todo as [|n todo IH]; intros rk; cbn; [reflexivity|apply IH]. Qed.

(** Every seed looked up in the ranks of the loop gives the rank list
    of the walk from that seed. *)
Lemma ranks_loop_get (todo : list string) (rk : ranks_dict) (n : string) :
  Py.dict_get n (ranks_loop w argv st todo rk) =
  if existsb (String.eqb n) todo then Some (fst (ranker w argv st n))
  else Py.dict_get n rk.
Proof.
  revert rk. induction todo as [|m todo IH]; intros rk; cbn; [reflexivity|].
  rewrite IH, DictFacts.get_set.
  destruct (String.eqb n m) eqn:E; cbn.
  - apply String.eqb_eq in E. subst m. destruct (existsb _ todo); reflexivity.
  - reflexivity.
Qed.

Hypothesis echo : echoes_start_node w.

Lemma gather_is_loop (todo : list string) (rk : ranks_dict) :
  gather (ranks_collection w argv st todo) rk = ranks_loop w argv st todo rk.
Proof.
  revert rk. induction todo as [|n todo IH]; intros rk; cbn; [reflexivity|].
  unfold ranks_collection in IH. rewrite IH.
  unfold ranker at 1. rewrite echo. reflexivity.
Qed.

End Workers.

(** C5.  Let the walk echo its start node.  On the same inputs, and
    with no rank cache, the run with one worker (the plain loop) and the
    run with any other valid number of workers (the pool) end the ranking
    stage with the same ranks: the same dict, key for key in the same
    order, in which every seed has the rank list of the walk from it. *)
Theorem C5_sequential_equals_pool (w : World) (argv : Args) (st : Setup) (p : option Z) :
  echoes_start_node w ->
  path_exists w (ranks argv) = false ->
  p <> Some 1%Z ->
  (forall n, p = Some n -> (1 <= n)%Z) ->
  exists rk,
    outcome (collect_ranks w (with_processes argv (Some 1%Z)) st) = inr rk /\
    outcome (collect_ranks w (with_processes argv p) st) = inr rk /\
    rk = ranks_loop w argv st (st_S st) [] /\
    rk = gather (ranks_collection w argv st (st_S st)) [] /\
    forall n, In n (st_S st) ->
              Py.dict_get n rk = Some (fst (ranker w argv st n)).
Proof.
  intros Hecho Hc Hp Hn.
  exists (ranks_loop w argv st (st_S st) []).
  split; [|split; [|split; [|split]]].
  - rewrite (trace_sequential w (with_processes argv (Some 1%Z)) st Hc eq_refl).
    cbn. now rewrite ranks_loop_processes.
  - rewrite (trace_pool w (with_processes argv p) st Hc Hp Hn).
    cbn [outcome snd]. f_equal.
    rewrite <- (gather_is_loop w argv st Hecho). reflexivity.
  - reflexivity.
  - now rewrite gather_is_loop.
  - intros n Hin. rewrite ranks_loop_get.
    assert (He : existsb (String.eqb n) (st_S st) = true).
    { apply existsb_exists. exists n. split; [exact Hin|apply String.eqb_refl]. }
    now rewrite He.
Qed.

Lemma toy_walk_echoes (files : list string) (adj : list string * list (list Q)) :
  echoes_start_node (Toy.world files adj).
Proof. intros n G a S_nodes x v. reflexivity. Qed.

Lemma C5_sequential_equals_pool_witness :
  exists rk,
    outcome (collect_ranks Toy.w_adj (with_processes Toy.argv_AB (Some 1%Z)) Toy.setup_AB)
    = inr rk /\
    outcome (collect_ranks Toy.w_adj (with_processes Toy.argv_AB (Some 4%Z)) Toy.setup_AB)
    = inr rk /\
    rk = ranks_loop Toy.w_adj Toy.argv_AB Toy.setup_AB (st_S Toy.setup_AB) [] /\
    rk = gather (ranks_collection Toy.w_adj Toy.argv_AB Toy.setup_AB (st_S Toy.setup_AB)) [] /\
    forall n, In n (st_S Toy.setup_AB) ->
              Py.dict_get n rk = Some (fst (ranker Toy.w_adj Toy.argv_AB Toy.setup_AB n)).
Proof.
  apply (C5_sequential_equals_pool Toy.w_adj Toy.argv_AB Toy.setup_AB (Some 4%Z)).
  - apply toy_walk_echoes.
  - reflexivity.
  - discriminate.
  - intros n [= <-]. lia.
Defined.

(** The echo is what the agreement rests on: a walk that answers with
    another node makes the pool file the rank lists under that node. *)
Example astray_paths_differ :
  ranks_loop Toy.w_astray Toy.argv_AB Toy.setup_AB ["A"; "B"] []
  = [("A", [("A", 1%Z)]); ("B", [("B", 1%Z)])] /\
  gather (ranks_collection Toy.w_astray Toy.argv_AB Toy.setup_AB ["A"; "B"]) []
  = [("Z", [("B", 1%Z)])].
Proof. split; reflexivity. Qed.

(** ** Scoring without measurements *)

Section NoMeasurements.

Variable w : World.
Variable argv : Args.
Hypothesis no_experimental : path_exists w (experimental argv) = false.

Lemma data_mx_pvals_default (st : Setup) :
  data_mx_pvals w argv st = ([], inr (PvalArray [[0%Q]])).
Proof. unfold data_mx_pvals. now rewrite no_experimental. Qed.

Lemma score_and_report_default (st : Setup) (rk : ranks_dict) :
  score_and_report w argv st rk =
  (emit (EvScore (PvalArray [[0%Q]]) None) ;;
   '(ind_F, F_info) <-
     lift (select_F (get_encoding_length w (get_pt_bs_by_k w (st_S st) rk) (st_G st)
                                         (PvalArray [[0%Q]]) None)) ;;
   entry <- lift (match nth_error (get_pt_bs_by_k w (st_S st) rk) ind_F with
                  | Some e => inr e
                  | None => inl IndexError
                  end) ;;
   emit (EvDumpResult (outfname argv)
           (mkOut (st_S st) (Fs argv entry) (p_value_F F_info)
                  (kmcm_probability F_info) (optimalBS F_info)
                  (List.length (st_G st)))) ;;
   emit (EvDumpRanks (outrname argv) rk))%run.
Proof.
  unfold score_and_report. rewrite data_mx_pvals_default. reflexivity.
Qed.

Lemma score_event_default (pvals : pvals_arg) (pt_id : option string) :
  In (EvScore pvals pt_id) (trace (main w argv)) ->
  pvals = PvalArray [[0%Q]] /\ pt_id = None.
Proof.
  intros Hin.
  destruct (late_event w argv (EvScore pvals pt_id) eq_refl eq_refl Hin) as (st & rk & _ & _ & _ & Hlate).
  rewrite score_and_report_default in Hlate. cbn in Hlate.
  destruct (select_F _) as [e|(i, F)]; cbn in Hlate.
  - destruct Hlate as [[= <- <-]|[]]. auto.
  - destruct (nth_error _ i); cbn in Hlate.
    + destruct Hlate as [[= <- <-]|[H|[H|[]]]]; try discriminate H. auto.
    + destruct Hlate as [[= <- <-]|[]]. auto.
Qed.

End NoMeasurements.

(** C10 (as the script has it).  Without an experimental file: the
    scorer is never called with anything but the 1-by-1 zero matrix and
    no patient identifier; and a run that gets through the setup, the
    seed check and the rank collection does call the scorer so, and ends
    as the winner selection over the returned table ends: no step of the
    script fails there for want of measurements. *)
Theorem C10_default_pvals (w : World) (argv : Args) :
  path_exists w (experimental argv) = false ->
  (forall pvals pt_id,
      In (EvScore pvals pt_id) (trace (main w argv)) ->
      pvals = PvalArray [[0%Q]] /\ pt_id = None) /\
  (forall st rk,
      outcome (setup w argv) = inr st ->
      (forall n, In n (st_S st) -> In n (Py.dict_keys (st_G st))) ->
      outcome (collect_ranks w argv st) = inr rk ->
      let bs := get_pt_bs_by_k w (st_S st) rk in
      let res := get_encoding_length w bs (st_G st) (PvalArray [[0%Q]]) None in
      In (EvScore (PvalArray [[0%Q]]) None) (trace (main w argv)) /\
      outcome (main w argv) =
      match select_F res with
      | inl e => inl e
      | inr (ind_F, _) =>
          match nth_error bs ind_F with
          | Some _ => inr tt
          | None => inl IndexError
          end
      end).
Proof.
  intros Hno. split; [apply score_event_default; exact Hno|].
  intros st rk Hs Hok Hrk bs res.
  apply all_seeds_known in Hok.
  assert (Em : main w argv =
               (trace (setup w argv) ++ trace (collect_ranks w argv st)
                  ++ trace (score_and_report w argv st rk),
                outcome (score_and_report w argv st rk))).
  { unfold main. rewrite (bind_inr _ _ _ Hs), (validate_pass _ _ Hok).
    cbn [bind fst snd app]. rewrite (bind_inr _ _ _ Hrk). reflexivity. }
  rewrite Em. cbn [trace outcome fst snd].
  rewrite (score_and_report_default w argv Hno). fold bs. fold res.
  split.
  - apply in_or_app. right. apply in_or_app. right. cbn. now left.
  - cbn. destruct (select_F res) as [e|(i, F)]; cbn; [reflexivity|].
    destruct (nth_error bs i); reflexivity.
Qed.

Lemma C10_default_pvals_witness :
  In (EvScore (PvalArray [[0%Q]]) None) (trace (main Toy.w_adj Toy.argv_AB)) /\
  outcome (main Toy.w_adj Toy.argv_AB) = inr tt.
Proof.
  refine (proj2 (C10_default_pvals Toy.w_adj Toy.argv_AB eq_refl)
                Toy.setup_AB _ eq_refl _ eq_refl).
  cbn. intros n [<-|[<-|[]]]; auto.
Defined.

(** The claim as it stands fails: with no experimental file and no
    adjacency file the run stops with a NameError where the network
    would be inferred from the measurements, and the scorer is never
    called. *)
Lemma C10_counterexample_no_adjacency :
  path_exists Toy.w_nothing (experimental Toy.argv_no_tables) = false /\
  main Toy.w_nothing Toy.argv_no_tables = ([], inl NameError) /\
  ~ exists pvals pt_id,
      In (EvScore pvals pt_id) (trace (main Toy.w_nothing Toy.argv_no_tables)).
Proof.
  split; [reflexivity|]. split; [reflexivity|].
  intros (pvals & pt_id & H). exact H.
Qed.

(** ** The two dumps *)



(** The run with the cache, in full: the cache comes back as the ranks
    output. *)
Example toy_run_cached :
  map (fun e => match e with
                | EvDumpRanks p rk => Some (p, rk)
                | _ => None
                end) (trace (main Toy.w_cached Toy.argv_cached))
  = [None; None; Some ("out_ranks.json", Toy.cached_ranks)].
Proof. reflexivity. Qed.

(** ** An empty graph *)




(** * Further properties of the script *)

(** ** The dict G and the ranks dict *)

Module DictMore.

Import DictFacts.

(** Setting a key that is not there appends it. *)
Lemma set_fresh {V : Type} (k : string) (v : V) (d : list (string * V)) :
  ~ In k (Py.dict_keys d) -> Py.dict_set k v d = d ++ [(k, v)].
Proof.
  unfold Py.dict_keys. induction d as [|(k0, v0) d IH]; cbn; intros H; [reflexivity|].
  destruct (String.eqb k k0) eqn:E.
  - apply String.eqb_eq in E. subst k0. exfalso. auto.
  - rewrite IH; auto.
Qed.

Lemma set_length {V : Type} (k : string) (v : V) (d : list (string * V)) :
  (List.length d <= List.length (Py.dict_set k v d) <= S (List.length d))%nat.
Proof.
  induction d as [|(k0, v0) d IH]; cbn; [lia|].
  destruct (String.eqb k k0); cbn; lia.
Qed.

Lemma set_values {V : Type} (P : V -> Prop) (k : string) (v : V) (d : list (string * V)) :
  P v -> (forall k' v', In (k', v') d -> P v') ->
  forall k' v', In (k', v') (Py.dict_set k v d) -> P v'.
Proof.
  intros Hv. induction d as [|(k0, v0) d IH]; cbn; intros Hd k' v' Hin.
  - destruct Hin as [[= <- <-]|[]]. exact Hv.
  - destruct (String.eqb k k0); cbn in Hin.
    + destruct Hin as [[= <- <-]|Hin]; [exact Hv|]. eapply Hd. right. exact Hin.
    + destruct Hin as [[= <- <-]|Hin].
      * eapply Hd. left. reflexivity.
      * apply IH with (k' := k'); auto. intros k1 v1 H1. eapply Hd. right. exact H1.
Qed.

End DictMore.

Section GraphDict.

Import DictFacts DictMore.

Lemma fold_G_spec (cols : list string) (G : graph_dict) :
  let G' := fold_left (fun G v => Py.dict_set v 0%Q G) cols G in
  (NoDup (Py.dict_keys G) -> NoDup (Py.dict_keys G')) /\
  (forall k, In k (Py.dict_keys G') <-> In k (Py.dict_keys G) \/ In k cols) /\
  ((forall k v, In (k, v) G -> v = 0%Q) -> forall k v, In (k, v) G' -> v = 0%Q) /\
  (NoDup (Py.dict_keys G ++ cols) -> Py.dict_keys G' = Py.dict_keys G ++ cols) /\
  (List.length G' <= List.length G + List.length cols)%nat.
Proof.
  revert G. induction cols as [|c cols IH]; intros G; cbn [fold_left].
  - cbn. rewrite app_nil_r. repeat split; auto; try tauto. lia.
  - destruct (IH (Py.dict_set c 0%Q G)) as (H1 & H2 & H3 & H4 & H5).
    split; [|split; [|split; [|split]]].
    + intros Hn. apply H1. now apply keys_set_NoDup.
    + intros k. rewrite H2, keys_set. cbn. intuition.
    + intros Hz. apply H3. apply (set_values (fun v => v = 0%Q)); auto.
    + intros Hn.
      assert (Hc : ~ In c (Py.dict_keys G)).
      { intros Hin. apply NoDup_remove_2 in Hn. apply Hn. apply in_or_app. now left. }
      rewrite H4.
      * rewrite (set_fresh c 0%Q G Hc). unfold Py.dict_keys.
        rewrite map_app, <- app_assoc. reflexivity.
      * rewrite (set_fresh c 0%Q G Hc). unfold Py.dict_keys.
        rewrite map_app, <- app_assoc. cbn.
        apply NoDup_remove_1 in Hn as Hn1.
        apply NoDup_remove_2 in Hn as Hn2.
        apply NoDup_app_remove_l in Hn as Hn3.
        clear - Hn Hn1 Hn2 Hc.
        replace (map fst G ++ c :: cols) with ((map fst G ++ [c]) ++ cols) in *
          by (rewrite <- app_assoc; reflexivity).
        rewrite <- app_assoc. cbn. exact Hn.
    + pose proof (set_length c 0%Q G). cbn. lia.
Qed.

End GraphDict.

Lemma build_G_spec (adj_df : AdjFrame) :
  NoDup (Py.dict_keys (build_G adj_df)) /\
  (forall k, In k (Py.dict_keys (build_G adj_df)) <-> In k (adj_columns adj_df)) /\
  (forall k v, In (k, v) (build_G adj_df) -> v = 0%Q) /\
  (forall k, In k (adj_columns adj_df) -> Py.dict_get k (build_G adj_df) = Some 0%Q) /\
  (NoDup (adj_columns adj_df) -> Py.dict_keys (build_G adj_df) = adj_columns adj_df) /\
  (List.length (build_G adj_df) <= List.length (adj_columns adj_df))%nat.
Proof.
  unfold build_G.
  destruct (fold_G_spec (adj_columns adj_df) []) as (H1 & H2 & H3 & H4 & H5).
  cbn in *.
  assert (Hn : NoDup (Py.dict_keys
                        (fold_left (fun G v => Py.dict_set v 0%Q G) (adj_columns adj_df) []))).
  { apply H1. constructor. }
  assert (Hz : forall k v,
             In (k, v) (fold_left (fun G v => Py.dict_set v 0%Q G) (adj_columns adj_df) []) ->
             v = 0%Q).
  { apply H3. intros k v []. }
  split; [exact Hn|]. split; [intros k; rewrite H2; tauto|].
  split; [exact Hz|]. split; [|split; [exact H4|exact H5]].
  intros k Hk.
  destruct (Py.dict_get k (fold_left (fun G v => Py.dict_set v 0%Q G) (adj_columns adj_df) []))
    as [v|] eqn:E.
  - apply DictFacts.get_Some_In in E. now rewrite (Hz k v E).
  - exfalso. apply DictFacts.get_None in E. apply E, H2. now right.
Qed.


(** ** What the setup leaves behind *)

Section SetupFacts.

Variable w : World.
Variable argv : Args.

Lemma read_experimental_cases :
  (path_exists w (experimental argv) = false /\
   read_experimental w argv = ([], inr (None, []))) \/
  (path_exists w (experimental argv) = true /\ path_exists w (control argv) = false /\
   read_experimental w argv = ([], inl FileNotFoundError)) \/
  (path_exists w (experimental argv) = true /\ path_exists w (control argv) = true /\
   read_experimental w argv =
   ([], inr (Some (surrogate_profiles w (read_csv_indexed w (experimental argv))
                                      (read_csv_indexed w (control argv))),
             df_columns (read_csv_indexed w (experimental argv))))).
Proof.
  unfold read_experimental.
  destruct (path_exists w (experimental argv)); [|now left].
  right. destruct (path_exists w (control argv)); [right|left]; auto.
Qed.

(** The pieces of a setup that went through. *)
Lemma setup_inv (st : Setup) :
  outcome (setup w argv) = inr st ->
  outcome (read_experimental w argv) = inr (st_experimental_df st, st_target_patients st) /\
  outcome (read_adjacency w argv (st_experimental_df st)) = inr (st_adj_df st) /\
  trace (setup w argv) = trace (read_adjacency w argv (st_experimental_df st)) /\
  st_G st = build_G (st_adj_df st) /\
  S_perturbed_nodes w argv (st_experimental_df st) (st_target_patients st) = inr (st_S st).
Proof.
  unfold setup. intros H.
  pose proof (read_experimental_trace w argv) as Ht.
  destruct (read_experimental w argv) as (t0, [e0|(df, tp)]); cbn in Ht; subst t0;
    cbn in H; [discriminate|].
  destruct (read_adjacency w argv df) as (t1, [e1|adj]) eqn:Ea; cbn in H; [discriminate|].
  destruct (S_perturbed_nodes w argv df tp) as [e2|S_nodes] eqn:Es; cbn in H; [discriminate|].
  injection H as <-. cbn. rewrite Ea, Es. cbn. rewrite !app_nil_r. auto.
Qed.

Lemma read_adjacency_given (df : option DataFrame) (adj_df : AdjFrame) :
  path_exists w (adj_matrix argv) = true ->
  outcome (read_adjacency w argv df) = inr adj_df ->
  trace (read_adjacency w argv df) = [] /\
  adj_columns adj_df = fst (read_csv_adj w (adj_matrix argv)) /\
  adj_index adj_df = fst (read_csv_adj w (adj_matrix argv)) /\
  adj_values adj_df = snd (read_csv_adj w (adj_matrix argv)) /\
  List.length (adj_values adj_df) = List.length (adj_columns adj_df).
Proof.
  unfold read_adjacency. intros -> H.
  destruct (read_csv_adj w (adj_matrix argv)) as (c, v).
  destruct (Nat.eqb _ _) eqn:E; cbn in H; [|discriminate].
  injection H as <-. cbn. apply Nat.eqb_eq in E. auto.
Qed.

Lemma read_adjacency_inferred (df : option DataFrame) (adj_df : AdjFrame) :
  path_exists w (adj_matrix argv) = false ->
  outcome (read_adjacency w argv df) = inr adj_df ->
  exists d,
    df = Some d /\
    adj_df = mkAdj (df_index d) (df_index d) (Pd.fill_diagonal0 (graphical_lasso_icov w d)) /\
    List.length (adj_values adj_df) = List.length (df_index d) /\
    trace (read_adjacency w argv df) =
    (if Py.truthy (out_graph_name argv)
     then match out_graph_name argv with
          | Some name => [EvToCsv name adj_df]
          | None => []
          end
     else []).
Proof.
  unfold read_adjacency. intros -> H.
  destruct df as [d|]; [|discriminate]. exists d.
  destruct (Nat.eqb _ _) eqn:E; [|discriminate].
  apply Nat.eqb_eq in E.
  destruct (out_graph_name argv) as [name|]; cbn in *.
  - destruct (negb (String.eqb name EmptyString)); cbn in *;
      injection H as <-; auto.
  - injection H as <-; auto.
Qed.

End SetupFacts.

(** ** [np.fill_diagonal] *)

Module DiagonalFacts.

Lemma row_cell (n : nat) (row : list Q) (j : nat) :
  nth j (firstn n row ++ match skipn n row with
                         | [] => []
                         | _ :: r => 0%Q :: r
                         end) 0%Q
  = if Nat.eqb j n then 0%Q else nth j row 0%Q.
Proof.
  revert row j. induction n as [|n IH]; intros row j.
  - cbn. destruct row as [|x row]; destruct j; reflexivity.
  - destruct row as [|x row]; cbn.
    + destruct j; [reflexivity|]. cbn. destruct (Nat.eqb j n); reflexivity.
    + destruct j as [|j]; [reflexivity|]. apply IH.
Qed.

Lemma row_length (n : nat) (row : list Q) :
  List.length (firstn n row ++ match skipn n row with
                               | [] => []
                               | _ :: r => 0%Q :: r
                               end) = List.length row.
Proof.
  revert row. induction n as [|n IH]; intros [|x row]; cbn; auto.
Qed.

Lemma fill_from_cell (i : nat) (m : list (list Q)) (p j : nat) :
  cell (Pd.fill_diagonal_from i m) p j =
  if Nat.eqb j (i + p) then 0%Q else cell m p j.
Proof.
  unfold cell. revert i p. induction m as [|row m IH]; intros i p;
    cbn [Pd.fill_diagonal_from].
  - assert (E : nth j (nth p (@nil (list Q)) []) 0%Q = 0%Q)
      by (destruct p, j; reflexivity).
    rewrite E. destruct (Nat.eqb j (i + p)); reflexivity.
  - destruct p as [|p]; cbn [nth].
    + rewrite Nat.add_0_r. apply row_cell.
    + rewrite IH. now rewrite Nat.add_succ_comm.
Qed.

Lemma fill_from_shape (i : nat) (m : list (list Q)) :
  map (@List.length Q) (Pd.fill_diagonal_from i m) = map (@List.length Q) m.
Proof.
  revert i. induction m as [|row m IH]; intros i; cbn; [reflexivity|].
  now rewrite row_length, IH.
Qed.

End DiagonalFacts.

(** X5.  An inferred adjacency table is labelled by the row labels of
    the measurements, on both axes; its diagonal is zero, every other
    entry is the one graphical lasso gave, and the shape is unchanged. *)
Theorem X5_inferred_adjacency (w : World) (argv : Args) (st : Setup) :
  outcome (setup w argv) = inr st ->
  path_exists w (adj_matrix argv) = false ->
  exists df,
    st_experimental_df st = Some df /\
    adj_columns (st_adj_df st) = df_index df /\
    adj_index (st_adj_df st) = df_index df /\
    List.length (adj_values (st_adj_df st)) = List.length (df_index df) /\
    map (@List.length Q) (adj_values (st_adj_df st))
    = map (@List.length Q) (graphical_lasso_icov w df) /\
    (forall i, cell (adj_values (st_adj_df st)) i i = 0%Q) /\
    (forall i j, i <> j ->
                 cell (adj_values (st_adj_df st)) i j
                 = cell (graphical_lasso_icov w df) i j).
Proof.
  intros Hs Ha.
  destruct (setup_inv w argv st Hs) as (_ & Hadj & _).
  destruct (read_adjacency_inferred w argv _ _ Ha Hadj) as (d & Hd & E & Hlen & _).
  exists d. rewrite E in *. cbn [adj_columns adj_index adj_values] in *.
  split; [exact Hd|].
  split; [reflexivity|]. split; [reflexivity|]. split; [exact Hlen|].
  split; [apply DiagonalFacts.fill_from_shape|]. split.
  - intros i. unfold Pd.fill_diagonal0. rewrite DiagonalFacts.fill_from_cell.
    cbn. now rewrite Nat.eqb_refl.
  - intros i j Hij. unfold Pd.fill_diagonal0. rewrite DiagonalFacts.fill_from_cell.
    cbn. destruct (Nat.eqb j i) eqn:E'; [|reflexivity].
    apply Nat.eqb_eq in E'. congruence.
Qed.

Lemma X5_inferred_adjacency_witness :
  exists df,
    st_experimental_df Toy2.setup_lasso = Some df /\
    adj_columns (st_adj_df Toy2.setup_lasso) = df_index df /\
    adj_index (st_adj_df Toy2.setup_lasso) = df_index df /\
    List.length (adj_values (st_adj_df Toy2.setup_lasso)) = List.length (df_index df) /\
    map (@List.length Q) (adj_values (st_adj_df Toy2.setup_lasso))
    = map (@List.length Q) (graphical_lasso_icov Toy2.w_lasso df) /\
    (forall i, cell (adj_values (st_adj_df Toy2.setup_lasso)) i i = 0%Q) /\
    (forall i j, i <> j ->
                 cell (adj_values (st_adj_df Toy2.setup_lasso)) i j
                 = cell (graphical_lasso_icov Toy2.w_lasso df) i j).
Proof.
  exact (X5_inferred_adjacency Toy2.w_lasso Toy2.argv_lasso Toy2.setup_lasso
                               eq_refl eq_refl).
Defined.

(** ** Missing inputs *)

(** X2.  With an experimental file but no control file the run raises
    FileNotFoundError at once: nothing is written, ranked or scored,
    whatever the other arguments are. *)
Theorem X2_control_required (w : World) (argv : Args) :
  path_exists w (experimental argv) = true ->
  path_exists w (control argv) = false ->
  main w argv = ([], inl FileNotFoundError).
Proof.
  intros He Hc. unfold main, setup, read_experimental. now rewrite He, Hc.
Qed.

Lemma X2_control_required_witness :
  main Toy2.w_no_control Toy2.argv_lasso = ([], inl FileNotFoundError).
Proof.
  apply (X2_control_required Toy2.w_no_control Toy2.argv_lasso); reflexivity.
Defined.

(** X3.  With neither an experimental file nor an adjacency file there
    is nothing to build the graph from: the run stops with a NameError
    on the unbound measurement table at the network inference, before
    anything is written, ranked or scored. *)
Theorem X3_no_graph_source (w : World) (argv : Args) :
  path_exists w (experimental argv) = false ->
  path_exists w (adj_matrix argv) = false ->
  main w argv = ([], inl NameError).
Proof.
  intros He Ha. unfold main, setup, read_experimental, read_adjacency.
  now rewrite He, Ha.
Qed.

Lemma X3_no_graph_source_witness :
  main Toy.w_nothing Toy.argv_no_tables = ([], inl NameError).
Proof.
  apply (X3_no_graph_source Toy.w_nothing Toy.argv_no_tables); reflexivity.
Defined.

(** ** A given adjacency file *)

(** X4.  When the adjacency file exists the graph is the one of the
    file: the keys of G are the labels of its header, the table is
    indexed by them, and no adjacency CSV is ever written, whatever
    --out_graph_name says. *)
Theorem X4_given_adjacency (w : World) (argv : Args) :
  path_exists w (adj_matrix argv) = true ->
  Forall (fun e => is_to_csv e = false) (trace (main w argv)) /\
  forall st,
    outcome (setup w argv) = inr st ->
    adj_columns (st_adj_df st) = fst (read_csv_adj w (adj_matrix argv)) /\
    adj_index (st_adj_df st) = adj_columns (st_adj_df st) /\
    List.length (adj_values (st_adj_df st)) = List.length (adj_columns (st_adj_df st)) /\
    forall k, In k (Py.dict_keys (st_G st)) <-> In k (fst (read_csv_adj w (adj_matrix argv))).
Proof.
  intros Ha. split.
  - apply Forall_forall. intros e He.
    destruct e; try reflexivity. exfalso.
    assert (Hin : In (EvToCsv path adj) (trace (setup w argv))).
    { destruct (main_cases w argv)
        as [(x & _ & Em)|(st & Est & [(_ & Em)|(Hv & [(x & _ & Em)|(rk & Erk & Em)])])];
        rewrite Em in He; cbn [trace fst] in He; auto.
      - apply in_app_or in He. destruct He as [He|He]; auto.
        exfalso. revert He.
        apply (Forall_not_in is_ranking); [apply collect_ranks_trace|reflexivity].
      - apply in_app_or in He. destruct He as [He|He]; auto.
        apply in_app_or in He. destruct He as [He|He]; exfalso.
        + revert He.
          apply (Forall_not_in is_ranking); [apply collect_ranks_trace|reflexivity].
        + destruct (score_and_report_cases w argv st rk)
            as [(e & E)|(pvals & pt_id & _ & _ & [(e & E)|(i & F & entry & _ & _ & E)])];
            rewrite E in He; cbn in He.
          * exact He.
          * destruct He as [H|[]]. discriminate H.
          * destruct He as [H|[H|[H|[]]]]; discriminate H. }
    destruct (setup_writes w argv _ Hin) as (name & a & _ & _ & Hf). congruence.
  - intros st Hs.
    destruct (setup_inv w argv st Hs) as (_ & Hadj & _ & HG & _).
    destruct (read_adjacency_given w argv _ _ Ha Hadj) as (_ & Hc & Hi & _ & Hl).
    split; [exact Hc|]. split; [congruence|]. split; [exact Hl|].
    intros k. rewrite HG, <- Hc. apply build_G_spec.
Qed.

Lemma X4_given_adjacency_witness :
  Forall (fun e => is_to_csv e = false) (trace (main Toy.w_adj Toy2.argv_graph_name)) /\
  forall st,
    outcome (setup Toy.w_adj Toy2.argv_graph_name) = inr st ->
    adj_columns (st_adj_df st)
    = fst (read_csv_adj Toy.w_adj (adj_matrix Toy2.argv_graph_name)) /\
    adj_index (st_adj_df st) = adj_columns (st_adj_df st) /\
    List.length (adj_values (st_adj_df st)) = List.length (adj_columns (st_adj_df st)) /\
    forall k, In k (Py.dict_keys (st_G st)) <->
              In k (fst (read_csv_adj Toy.w_adj (adj_matrix Toy2.argv_graph_name))).
Proof.
  exact (X4_given_adjacency Toy.w_adj Toy2.argv_graph_name eq_refl).
Defined.

(** ** The shape of a run *)

Section Shape.

Variable w : World.
Variable argv : Args.

Lemma setup_trace_length : (List.length (trace (setup w argv)) <= 1)%nat.
Proof.
  destruct (outcome (setup w argv)) as [e|st] eqn:Es.
  - unfold setup in *.
    destruct (read_experimental_cases w argv) as [(_ & E)|[(_ & _ & E)|(_ & _ & E)]];
      rewrite E in *; cbn in *; try lia.
    + unfold read_adjacency in *.
      destruct (path_exists w (adj_matrix argv)).
      * destruct (read_csv_adj w (adj_matrix argv)) as (c, v).
        destruct (Nat.eqb _ _); cbn; [|lia].
        destruct (S_perturbed_nodes w argv None []); cbn; lia.
      * cbn. lia.
    + unfold read_adjacency in *.
      destruct (path_exists w (adj_matrix argv)).
      * destruct (read_csv_adj w (adj_matrix argv)) as (c, v).
        destruct (Nat.eqb _ _); cbn; [|lia].
        destruct (S_perturbed_nodes w argv _ _); cbn; lia.
      * destruct (Nat.eqb _ _); cbn; [|lia].
        destruct (out_graph_name argv) as [name|]; cbn.
        -- destruct (negb (String.eqb name EmptyString)); cbn;
             destruct (S_perturbed_nodes w argv _ _); cbn; lia.
        -- destruct (S_perturbed_nodes w argv _ _); cbn; lia.
  - destruct (setup_inv w argv st Es) as (_ & Hadj & Ht & _).
    rewrite Ht.
    destruct (path_exists w (adj_matrix argv)) eqn:Ea.
    + destruct (read_adjacency_given w argv _ _ Ea Hadj) as (-> & _). cbn. lia.
    + destruct (read_adjacency_inferred w argv _ _ Ea Hadj) as (d & _ & _ & _ & ->).
      destruct (Py.truthy (out_graph_name argv)); [|cbn; lia].
      destruct (out_graph_name argv); cbn; lia.
Qed.

(** A run is: at most one table written, then ranking work, then
    nothing more, or the scorer call alone, or the scorer call and the
    two dumps; and it ends well in the last case only. *)
Lemma main_shape :
  exists a b c,
    trace (main w argv) = a ++ b ++ c /\
    Forall (fun e => is_to_csv e = true) a /\ (List.length a <= 1)%nat /\
    Forall (fun e => is_ranking e = true) b /\
    ((c = [] /\ exists e, outcome (main w argv) = inl e) \/
     (exists pvals pt_id e,
         c = [EvScore pvals pt_id] /\ outcome (main w argv) = inl e) \/
     (exists pvals pt_id out rk,
         c = [EvScore pvals pt_id; EvDumpResult (outfname argv) out;
              EvDumpRanks (outrname argv) rk] /\
         outcome (main w argv) = inr tt)).
Proof.
  pose proof (setup_trace w argv) as Hs.
  pose proof setup_trace_length as Hl.
  destruct (main_cases w argv)
    as [(x & _ & Em)|(st & Est & [(_ & Em)|(Hv & [(x & _ & Em)|(rk & Erk & Em)])])];
    rewrite Em; cbn [trace outcome fst snd].
  - exists (trace (setup w argv)), [], []. rewrite !app_nil_r.
    repeat split; auto. left. split; eauto.
  - exists (trace (setup w argv)), [], []. rewrite !app_nil_r.
    repeat split; auto. left. split; eauto.
  - exists (trace (setup w argv)), (trace (collect_ranks w argv st)), [].
    rewrite !app_nil_r. repeat split; auto; [apply collect_ranks_trace|].
    left. split; eauto.
  - exists (trace (setup w argv)), (trace (collect_ranks w argv st)),
      (trace (score_and_report w argv st rk)).
    split; [reflexivity|]. split; [exact Hs|]. split; [exact Hl|].
    split; [apply collect_ranks_trace|].
    destruct (score_and_report_cases w argv st rk)
      as [(e & E)|(pvals & pt_id & _ & _ & [(e & E)|(i & F & entry & _ & _ & E)])];
      rewrite E; cbn [trace outcome fst snd].
    + left. split; eauto.
    + right. left. eauto.
    + right. right. eauto 6.
Qed.

End Shape.


(** ** The names of the two files *)

Module NameFacts.

Lemma replace_absent (old new s : string) :
  occurs old s = false -> Str.replace old new s = s.
Proof.
  unfold Str.replace. induction s as [|c s IH]; cbn; [reflexivity|].
  intros H. apply orb_false_iff in H. destruct H as (Hp & Ho).
  cbn in Hp. rewrite Hp. now rewrite IH.
Qed.

Lemma skip_all (old new s : string) :
  Str.replace_from old new (String.length s) s = EmptyString.
Proof. induction s as [|c s IH]; cbn; auto. Qed.

Lemma prefix_refl (s : string) : String.prefix s s = true.
Proof.
  induction s as [|c s IH]; cbn; [reflexivity|].
  destruct (Ascii.ascii_dec c c); congruence.
Qed.

Lemma append_nil_r (s : string) : (s ++ EmptyString)%string = s.
Proof. induction s as [|c s IH]; cbn; congruence. Qed.

Lemma append_assoc (a b c : string) : ((a ++ b) ++ c)%string = (a ++ b ++ c)%string.
Proof. induction a as [|x a IH]; cbn; congruence. Qed.

(** A string that ends in [old] and has the first character of [old]
    nowhere before has that ending replaced, and nothing else. *)
Lemma replace_ending (o : ascii) (old' new stem : string) :
  Forall (fun c => c <> o) (list_ascii_of_string stem) ->
  Str.replace (String o old') new (stem ++ String o old')%string = (stem ++ new)%string.
Proof.
  unfold Str.replace. induction stem as [|c stem IH]; cbn [append list_ascii_of_string]; intros H.
  - cbn [Str.replace_from]. rewrite prefix_refl. cbn [String.length Nat.sub].
    rewrite Nat.sub_0_r, skip_all. now rewrite append_nil_r.
  - inversion H as [|x l Hc Hl]; subst.
    cbn [Str.replace_from String.prefix].
    destruct (Ascii.ascii_dec o c) as [->|Hne]; [congruence|].
    now rewrite IH.
Qed.

Lemma basename_plain (name : string) :
  Forall (fun c => c <> "/"%char) (list_ascii_of_string name) ->
  Str.basename name = name.
Proof.
  destruct name as [|c name]; cbn; [reflexivity|]. intros H.
  inversion H as [|x l Hc Hl]; subst.
  assert (E : existsb (Ascii.eqb "/"%char) (list_ascii_of_string name) = false).
  { apply not_true_is_false. intros Hex. apply existsb_exists in Hex.
    destruct Hex as (x & Hx & Hx'). apply Ascii.eqb_eq in Hx'. subst x.
    rewrite Forall_forall in Hl. now apply (Hl _ Hx). }
  rewrite E. destruct (Ascii.eqb_spec c "/"%char); congruence.
Qed.

Lemma basename_dir (dir name : string) :
  Forall (fun c => c <> "/"%char) (list_ascii_of_string name) ->
  Str.basename (dir ++ String "/"%char name)%string = name.
Proof.
  intros H.
  assert (Hno : existsb (Ascii.eqb "/"%char) (list_ascii_of_string name) = false).
  { apply not_true_is_false. intros Hex. apply existsb_exists in Hex.
    destruct Hex as (x & Hx & Hx'). apply Ascii.eqb_eq in Hx'. subst x.
    rewrite Forall_forall in H. now apply (H _ Hx). }
  assert (Hyes : forall d, existsb (Ascii.eqb "/"%char)
                                   (list_ascii_of_string (d ++ String "/"%char name)%string) = true).
  { induction d as [|c d IHd]; cbn; [reflexivity|]. rewrite IHd. apply orb_true_r. }
  induction dir as [|c dir IH]; cbn [append Str.basename].
  - rewrite Hno. reflexivity.
  - rewrite Hyes. exact IH.
Qed.

End NameFacts.

(** X7.  When the name of the result file holds no ".json", the ranks
    are written under the very same name: a run that ends well has
    dumped the result and then, over the same path, the ranks. *)
Theorem X7_same_name_without_json (w : World) (argv : Args) :
  occurs ".json" (outfname argv) = false ->
  outrname argv = outfname argv /\
  (outcome (main w argv) = inr tt ->
   exists before out rk,
     trace (main w argv) =
     before ++ [EvDumpResult (outfname argv) out; EvDumpRanks (outfname argv) rk]).
Proof.
  intros Hno.
  assert (E : outrname argv = outfname argv).
  { unfold outrname. now apply NameFacts.replace_absent. }
  split; [exact E|]. intros Hok.
  destruct (main_shape w argv) as (a & b & c & Et & _ & _ & _ & Hc).
  destruct Hc as [(_ & e & Ho)|[(pv & pt & e & _ & Ho)|(pv & pt & out & rk & -> & _)]];
    try congruence.
  exists (a ++ b ++ [EvScore pv pt]), out, rk.
  rewrite Et, E, <- !app_assoc. reflexivity.
Qed.

Lemma X7_same_name_without_json_witness :
  outrname Toy2.argv_lasso = outfname Toy2.argv_lasso /\
  (outcome (main Toy2.w_lasso Toy2.argv_lasso) = inr tt ->
   exists before out rk,
     trace (main Toy2.w_lasso Toy2.argv_lasso) =
     before ++ [EvDumpResult (outfname Toy2.argv_lasso) out;
                EvDumpRanks (outfname Toy2.argv_lasso) rk]).
Proof.
  apply (X7_same_name_without_json Toy2.w_lasso Toy2.argv_lasso). reflexivity.
Defined.

Example toy_run_lasso_overwrites :
  outcome (main Toy2.w_lasso Toy2.argv_lasso) = inr tt /\
  map (fun e => match e with
                | EvToCsv p _ | EvDumpResult p _ | EvDumpRanks p _ => Some p
                | _ => None
                end) (trace (main Toy2.w_lasso Toy2.argv_lasso))
  = [Some "graph.csv"; None; None; None; Some "res"; Some "res"].
Proof. split; reflexivity. Qed.

Section DefaultNames.

Lemma chars_append (a b : string) :
  list_ascii_of_string (a ++ b)%string = list_ascii_of_string a ++ list_ascii_of_string b.
Proof. induction a as [|c a IH]; cbn; congruence. Qed.

Variable argv : Args.
Variables dir stem : string.

Hypothesis no_output_name : Py.truthy (output_name argv) = false.
Hypothesis plain_stem :
  Forall (fun c => c <> "/"%char /\ c <> "."%char /\ c <> "c"%char)
         (list_ascii_of_string stem).

Lemma default_names_of (source : string) :
  (source = (stem ++ ".csv")%string \/ source = (dir ++ "/" ++ stem ++ ".csv")%string) ->
  Str.replace "csv" "json" (Str.basename source) = (stem ++ ".json")%string /\
  Str.replace ".json" "_ranks.json" (stem ++ ".json") = (stem ++ "_ranks.json")%string.
Proof.
  intros Hsrc.
  assert (Hslash : Forall (fun c => c <> "/"%char)
                          (list_ascii_of_string (stem ++ ".csv")%string)).
  { rewrite chars_append. apply Forall_app. split.
    - eapply Forall_impl; [|exact plain_stem]. cbn. tauto.
    - cbn. repeat constructor; discriminate. }
  assert (Hb : Str.basename source = (stem ++ ".csv")%string).
  { destruct Hsrc as [->| ->].
    - now apply NameFacts.basename_plain.
    - cbn [append]. now apply NameFacts.basename_dir. }
  rewrite Hb. split.
  - change (stem ++ ".csv")%string with (stem ++ "." ++ "csv")%string.
    rewrite <- NameFacts.append_assoc.
    rewrite (NameFacts.replace_ending "c"%char "sv" "json" (stem ++ ".")%string).
    + now rewrite NameFacts.append_assoc.
    + rewrite chars_append. apply Forall_app. split.
      * eapply Forall_impl; [|exact plain_stem]. cbn. tauto.
      * cbn. repeat constructor; discriminate.
  - apply (NameFacts.replace_ending "."%char "json" "_ranks.json" stem).
    eapply Forall_impl; [|exact plain_stem]. cbn. tauto.
Qed.

End DefaultNames.

(** X8.  Without --output_name the two files are named after the
    experimental file, or after the adjacency file when no experimental
    file was named: for a source [stem.csv], in any directory, with a
    stem free of slash, dot and the letter c, the result goes to
    [stem.json] and the ranks to [stem_ranks.json], in the working
    directory. *)
Theorem X8_default_names (argv : Args) (dir stem : string) :
  Py.truthy (output_name argv) = false ->
  Forall (fun c => c <> "/"%char /\ c <> "."%char /\ c <> "c"%char)
         (list_ascii_of_string stem) ->
  let source := if String.eqb (experimental argv) EmptyString
                then adj_matrix argv else experimental argv in
  (source = (stem ++ ".csv")%string \/ source = (dir ++ "/" ++ stem ++ ".csv")%string) ->
  outfname argv = (stem ++ ".json")%string /\
  outrname argv = (stem ++ "_ranks.json")%string.
Proof.
  intros Hn Hs source Hsrc.
  destruct (default_names_of dir stem Hs source Hsrc) as (H1 & H2).
  assert (E : outfname argv = (stem ++ ".json")%string).
  { unfold outfname. rewrite Hn. cbn [negb]. subst source.
    destruct (String.eqb (experimental argv) EmptyString); exact H1. }
  split; [exact E|]. unfold outrname. rewrite E. exact H2.
Qed.

Lemma X8_default_names_witness :
  outfname (Toy.args (Some "A,B") None) = "adj.json" /\
  outrname (Toy.args (Some "A,B") None) = "adj_ranks.json".
Proof.
  apply (X8_default_names (Toy.args (Some "A,B") None) EmptyString "adj").
  - reflexivity.
  - cbn. repeat constructor; discriminate.
  - left. reflexivity.
Defined.

(** ** The ranking stage *)

Section RankingFacts.

Variable w : World.
Variable argv : Args.

Lemma ranking_event_budget (st : Setup) (e : event) (x : np_float) :
  In e (trace (collect_ranks w argv st)) -> num_misses_of e = Some x ->
  x = np_log2 (List.length (st_G st)).
Proof.
  unfold collect_ranks.
  destruct (path_exists w (ranks argv)); [intros []|].
  assert (Hpool : forall p,
             In e (trace (Pool p ;;
                          emit (EvPoolMap p (np_log2 (List.length (st_G st))) (st_S st)) ;;
                          ret (gather (ranks_collection w argv st (st_S st)) []))%run) ->
             num_misses_of e = Some x -> x = np_log2 (List.length (st_G st))).
  { intros p. destruct p as [n|]; cbn; [destruct (n <? 1)%Z; cbn|].
    - intros [].
    - intros [<-|[]]. cbn. congruence.
    - intros [<-|[]]. cbn. congruence. }
  destruct (num_processes argv) as [[|[p|p|]|p]|]; try apply Hpool.
  rewrite rank_events_trace. cbn. rewrite app_nil_r.
  intros Hin. apply in_map_iff in Hin. destruct Hin as (n & <- & _). cbn. congruence.
Qed.

Lemma np_log2_neg_inf (n : nat) : np_log2 n = neg_inf <-> n = 0%nat.
Proof. destruct n; cbn; split; congruence. Qed.

Lemma build_G_empty (adj_df : AdjFrame) :
  List.length (build_G adj_df) = 0%nat <-> adj_columns adj_df = [].
Proof.
  destruct (build_G_spec adj_df) as (_ & Hk & _).
  split.
  - intros Hl. destruct (build_G adj_df) as [|kv G] eqn:E; [|discriminate].
    destruct (adj_columns adj_df) as [|c cols]; [reflexivity|].
    exfalso. apply (proj2 (Hk c)). now left.
  - intros Hc. destruct (build_G adj_df) as [|(k, v) G] eqn:E; [reflexivity|].
    exfalso. rewrite Hc in Hk. apply (proj1 (Hk k)). now left.
Qed.

End RankingFacts.

(** X9.  Every walk of a run, in the loop or over the pool, is given the
    same miss budget, the base-2 logarithm of the number of keys of G;
    it is minus infinity exactly when the adjacency table has no
    column. *)
Theorem X9_miss_budget (w : World) (argv : Args) (st : Setup) (e : event) (x : np_float) :
  outcome (setup w argv) = inr st ->
  In e (trace (main w argv)) ->
  num_misses_of e = Some x ->
  x = np_log2 (List.length (st_G st)) /\
  (x = neg_inf <-> adj_columns (st_adj_df st) = []).
Proof.
  intros Hs Hin Hx.
  assert (Hc : In e (trace (collect_ranks w argv st))).
  { destruct (main_cases w argv)
      as [(x0 & Ex & Em)|(st' & Est & [(_ & Em)|(Hv & [(x0 & _ & Em)|(rk & Erk & Em)])])];
      try congruence; rewrite Em in Hin; cbn [trace fst] in Hin;
      try (assert (st' = st) by congruence; subst st').
    - exfalso. destruct (setup_writes w argv e Hin) as (name & a & -> & _). discriminate.
    - apply in_app_or in Hin. destruct Hin as [Hin|Hin]; [|exact Hin].
      exfalso. destruct (setup_writes w argv e Hin) as (name & a & -> & _). discriminate.
    - apply in_app_or in Hin. destruct Hin as [Hin|Hin].
      { exfalso. destruct (setup_writes w argv e Hin) as (name & a & -> & _). discriminate. }
      apply in_app_or in Hin. destruct Hin as [Hin|Hin]; [exact Hin|]. exfalso.
      destruct (score_and_report_cases w argv st rk)
        as [(e0 & E)|(pvals & pt_id & _ & _ & [(e0 & E)|(i & F & entry & _ & _ & E)])];
        rewrite E in Hin; cbn in Hin.
      + exact Hin.
      + destruct Hin as [<-|[]]. discriminate.
      + destruct Hin as [<-|[<-|[<-|[]]]]; discriminate. }
  pose proof (ranking_event_budget w argv st e x Hc Hx) as E.
  split; [exact E|].
  destruct (setup_inv w argv st Hs) as (_ & _ & _ & HG & _).
  rewrite E, np_log2_neg_inf, HG. apply build_G_empty.
Qed.

Lemma X9_miss_budget_witness :
  log2_of 4 = np_log2 (List.length (st_G Toy.setup_AB)) /\
  (log2_of 4 = neg_inf <-> adj_columns (st_adj_df Toy.setup_AB) = []).
Proof.
  apply (X9_miss_budget Toy.w_adj Toy.argv_AB Toy.setup_AB (EvRank "B" (log2_of 4))).
  - reflexivity.
  - rewrite toy_run_AB. cbn. auto.
  - reflexivity.
Defined.

(** X10.  With a rank cache the number of workers plays no part: the
    run is the same whatever --num_processes is, even a count no pool
    would accept. *)
Theorem X10_cache_ignores_workers (w : World) (argv : Args) (p : option Z) :
  path_exists w (ranks argv) = true ->
  main w (with_processes argv p) = main w argv.
Proof.
  intros Hc. unfold main.
  change (setup w (with_processes argv p)) with (setup w argv).
  destruct (setup w argv) as (t, [e|st]); [reflexivity|].
  cbn [bind]. f_equal.
  - f_equal. f_equal.
    rewrite (trace_cached w (with_processes argv p) st Hc), (trace_cached w argv st Hc).
    reflexivity.
  - f_equal.
    rewrite (trace_cached w (with_processes argv p) st Hc), (trace_cached w argv st Hc).
    reflexivity.
Qed.

Lemma X10_cache_ignores_workers_witness :
  main Toy.w_cached (with_processes Toy.argv_cached (Some 0%Z)) = main Toy.w_cached Toy.argv_cached.
Proof.
  apply (X10_cache_ignores_workers Toy.w_cached Toy.argv_cached (Some 0%Z)). reflexivity.
Defined.

(** X11.  Without a cache, a worker count below one stops the run with
    a ValueError when the pool is made: the seeds have passed the check,
    but no walk is started, the scorer is not called and no JSON file is
    written. *)
Theorem X11_no_worker (w : World) (argv : Args) (st : Setup) (n : Z) :
  outcome (setup w argv) = inr st ->
  (forall s, In s (st_S st) -> In s (Py.dict_keys (st_G st))) ->
  path_exists w (ranks argv) = false ->
  num_processes argv = Some n -> (n < 1)%Z ->
  main w argv = (trace (setup w argv), inl ValueError).
Proof.
  intros Hs Hok Hc Hp Hn. apply all_seeds_known in Hok.
  unfold main. rewrite (bind_inr _ _ _ Hs), (validate_pass _ _ Hok).
  cbn [bind fst snd app]. unfold collect_ranks. rewrite Hc, Hp.
  assert (Hlt : (n <? 1)%Z = true) by (apply Z.ltb_lt; exact Hn).
  destruct n as [|[q|q|]|q]; try lia; cbn; now rewrite app_nil_r.
Qed.

Lemma X11_no_worker_witness :
  main Toy.w_adj Toy2.argv_pool0 = (trace (setup Toy.w_adj Toy2.argv_pool0), inl ValueError).
Proof.
  apply (X11_no_worker Toy.w_adj Toy2.argv_pool0 Toy.setup_AB 0).
  - reflexivity.
  - cbn. intros s [<-|[<-|[]]]; auto.
  - reflexivity.
  - reflexivity.
  - lia.
Defined.

Section RanksKeys.

Variable w : World.
Variable argv : Args.
Variable st : Setup.

Lemma ranks_loop_keys (todo : list string) (rk : ranks_dict) :
  (NoDup (Py.dict_keys rk) -> NoDup (Py.dict_keys (ranks_loop w argv st todo rk))) /\
  (forall k, In k (Py.dict_keys (ranks_loop w argv st todo rk)) <->
             In k (Py.dict_keys rk) \/ In k todo) /\
  (NoDup (Py.dict_keys rk ++ todo) ->
   Py.dict_keys (ranks_loop w argv st todo rk) = Py.dict_keys rk ++ todo).
Proof.
  revert rk. induction todo as [|n todo IH]; intros rk; cbn [ranks_loop].
  - rewrite app_nil_r. split; [auto|]. split; [|auto].
    intros k. cbn. tauto.
  - destruct (IH (Py.dict_set n (fst (ranker w argv st n)) rk)) as (H1 & H2 & H3).
    split; [|split].
    + intros Hn. apply H1. now apply DictFacts.keys_set_NoDup.
    + intros k. rewrite H2, DictFacts.keys_set. cbn. intuition.
    + intros Hn.
      assert (Hc : ~ In n (Py.dict_keys rk)).
      { intros Hin. apply NoDup_remove_2 in Hn. apply Hn. apply in_or_app. now left. }
      rewrite H3; rewrite (DictMore.set_fresh n _ rk Hc); unfold Py.dict_keys;
        rewrite map_app, <- app_assoc; cbn; [reflexivity|exact Hn].
Qed.

End RanksKeys.

(** X12.  The ranks the plain loop builds have one entry per distinct
    seed, under the seed's own name, holding the rank list of the walk
    from it; a seed list without repetition gives its own order. *)
Theorem X12_loop_ranks_keys (w : World) (argv : Args) (st : Setup) :
  let rk := ranks_loop w argv st (st_S st) [] in
  NoDup (Py.dict_keys rk) /\
  (forall k, In k (Py.dict_keys rk) <-> In k (st_S st)) /\
  (forall k, In k (st_S st) -> Py.dict_get k rk = Some (fst (ranker w argv st k))) /\
  (forall k, ~ In k (st_S st) -> Py.dict_get k rk = None) /\
  (NoDup (st_S st) -> Py.dict_keys rk = st_S st).
Proof.
  intros rk. subst rk.
  destruct (ranks_loop_keys w argv st (st_S st) []) as (H1 & H2 & H3). cbn in *.
  split; [apply H1; constructor|]. split; [intros k; rewrite H2; tauto|].
  split; [|split; [|exact H3]].
  - intros k Hk. rewrite ranks_loop_get.
    assert (He : existsb (String.eqb k) (st_S st) = true).
    { apply existsb_exists. exists k. split; [exact Hk|apply String.eqb_refl]. }
    now rewrite He.
  - intros k Hk. apply DictFacts.get_None. rewrite H2. tauto.
Qed.

(** ** More on the seeds *)

Section SeedsMore.

Variable w : World.
Variable argv : Args.

Lemma slice_to_firstn {A : Type} (k : Z) (l : list A) :
  exists n, Py.slice_to k l = firstn n l.
Proof. unfold Py.slice_to. destruct (0 <=? k)%Z; eauto. Qed.

Lemma In_firstn {A : Type} (n : nat) (l : list A) (x : A) :
  In x (firstn n l) -> In x l.
Proof.
  intros H. rewrite <- (firstn_skipn n l). apply in_or_app. now left.
Qed.

Lemma NoDup_firstn {A : Type} (n : nat) (l : list A) :
  NoDup l -> NoDup (firstn n l).
Proof.
  intros H. rewrite <- (firstn_skipn n l) in H. now apply NoDup_app_remove_r in H.
Qed.

Lemma sorted_index_labels (d : DataFrame) (pt : string) (idx : list string) :
  sorted_index d pt idx ->
  (forall n, In n idx -> In n (df_index d)) /\
  (NoDup (df_index d) -> NoDup idx).
Proof.
  intros (vals & sorted & _ & -> & Hp & _). split.
  - intros n Hn. apply in_map_iff in Hn. destruct Hn as ((n', v) & E & Hin).
    cbn in E. subst n'. apply (Permutation_in _ Hp) in Hin.
    now apply in_combine_l in Hin.
  - intros Hn. apply (Permutation_NoDup (l := map fst (combine (df_index d) vals))).
    + apply Permutation_map. now symmetry.
    + clear Hp. revert vals. induction (df_index d) as [|a l IH]; intros vals; cbn.
      * constructor.
      * destruct vals as [|v vals]; cbn; [constructor|].
        inversion Hn as [|x l' Hx Hl]; subst. constructor; [|auto].
        intros Hin. apply Hx. apply in_map_iff in Hin.
        destruct Hin as ((a', v') & E & Hin). cbn in E. subst a'.
        now apply in_combine_l in Hin.
Qed.

Lemma Forall2_right {A B : Type} (R : A -> B -> Prop) (l : list A) (l' : list B) (y : B) :
  Forall2 R l l' -> In y l' -> exists x, In x l /\ R x y.
Proof.
  induction 1 as [|a b l l' Hab HF IH]; cbn; [intros []|].
  intros [<-|Hin].
  - exists a. auto.
  - destruct (IH Hin) as (x & Hx & Hr). exists x. auto.
Qed.

Lemma frequent_nodes_nil (n_patients : nat) : frequent_nodes argv [] n_patients = [].
Proof. reflexivity. Qed.

Lemma count_in_slices (idxs : list (list string)) (k : Z) (n : string) :
  Forall (@NoDup string) idxs ->
  (count_occ string_dec (flat_map (Py.slice_to k) idxs) n <= List.length idxs)%nat.
Proof.
  induction idxs as [|idx idxs IH]; cbn; intros H; [lia|].
  inversion H as [|x l Hx Hl]; subst.
  rewrite count_occ_app. specialize (IH Hl).
  destruct (slice_to_firstn k idx) as (m & ->).
  pose proof (NoDup_firstn m idx Hx) as Hnd.
  rewrite (NoDup_count_occ string_dec) in Hnd. specialize (Hnd n). lia.
Qed.

End SeedsMore.

(** X13.  Seeds chosen from the measurements are row labels of the
    measurement table, whatever the adjacency table is labelled with;
    without patients, or with kmx = 0, no seed is chosen at all. *)
Theorem X13_measured_seeds (w : World) (argv : Args)
        (df : option DataFrame) (tp S_nodes : list string) :
  Py.truthy (s_module argv) = false ->
  S_perturbed_nodes w argv df tp = inr S_nodes ->
  (forall n, In n S_nodes -> exists d, df = Some d /\ In n (df_index d)) /\
  (tp = [] -> S_nodes = []) /\
  (kmx argv = 0%Z -> S_nodes = []).
Proof.
  intros Hm. unfold S_perturbed_nodes. rewrite Hm. cbn [negb].
  destruct (top_nodes argv df tp) as [e|S_set] eqn:Et; [discriminate|].
  intros [= <-]. destruct (top_nodes_spec argv df tp S_set Et) as (idxs & HF & ->).
  destruct (frequent_nodes_spec argv (flat_map (Py.slice_to (kmx argv)) idxs)
                                (List.length tp)) as (_ & Hin).
  split; [|split].
  - intros n Hn. apply Hin in Hn. destruct Hn as (Hn & _).
    apply in_flat_map in Hn. destruct Hn as (idx & Hidx & Hn).
    destruct (slice_to_firstn (kmx argv) idx) as (m & Em). rewrite Em in Hn.
    apply In_firstn in Hn.
    destruct (Forall2_right _ _ _ _ HF Hidx) as (pt & _ & d & Hd & Hs).
    exists d. split; [exact Hd|].
    now apply (proj1 (sorted_index_labels d pt idx Hs)).
  - intros ->. inversion HF; subst. reflexivity.
  - intros Hk. rewrite Hk.
    assert (E : flat_map (Py.slice_to 0) idxs = []).
    { clear. induction idxs as [|i idxs IH]; cbn; [reflexivity|exact IH]. }
    rewrite E. reflexivity.
Qed.

Lemma X13_measured_seeds_witness :
  (forall n, In n ["A"; "B"] ->
             exists d, Some Toy.patients = Some d /\ In n (df_index d)) /\
  (["p1"; "p2"] = [] -> ["A"; "B"] = []) /\
  (kmx Toy.argv_top3 = 0%Z -> ["A"; "B"] = []).
Proof.
  apply (X13_measured_seeds Toy.w_inferred Toy.argv_top3 (Some Toy.patients)
                            ["p1"; "p2"] ["A"; "B"]); reflexivity.
Defined.



Module SplitFacts.

Lemma split_length (sep : ascii) (s : string) :
  List.length (Str.split sep s) = S (count_char sep s).
Proof.
  induction s as [|c s IH]; cbn; [reflexivity|].
  destruct (Ascii.eqb c sep); cbn.
  - now rewrite IH.
  - destruct (Str.split sep s) as [|h t]; cbn in *; lia.
Qed.

Lemma split_trailing (sep : ascii) (s : string) :
  Str.split sep (s ++ String sep EmptyString)%string = Str.split sep s ++ [EmptyString].
Proof.
  induction s as [|c s IH]; cbn.
  - now rewrite Ascii.eqb_refl.
  - destruct (Ascii.eqb c sep); [now rewrite IH|].
    rewrite IH. destruct (Str.split sep s) as [|h t] eqn:E; [|reflexivity].
    now apply StrFacts.split_nonempty in E.
Qed.

Lemma split_leading (sep : ascii) (s : string) :
  Str.split sep (String sep s) = EmptyString :: Str.split sep s.
Proof. cbn. now rewrite Ascii.eqb_refl. Qed.

End SplitFacts.

(** X15.  A seed list given on the command line has one seed more than
    it has commas, so never none; a comma at the very start or the very
    end makes the empty string a seed. *)
Theorem X15_inline_seeds (w : World) (argv : Args)
        (df : option DataFrame) (tp : list string) (spec : string) :
  s_module argv = Some spec -> spec <> EmptyString -> path_exists w spec = false ->
  exists S_nodes,
    S_perturbed_nodes w argv df tp = inr S_nodes /\
    List.length S_nodes = S (count_char ","%char spec) /\
    (forall body, spec = (body ++ ",")%string -> In EmptyString S_nodes) /\
    (forall body, spec = String ","%char body -> In EmptyString S_nodes).
Proof.
  intros Hs Hne Hp. exists (map Str.strip (Str.split ","%char spec)).
  split; [|split; [|split]].
  - unfold S_perturbed_nodes. rewrite Hs.
    apply truthy_Some in Hne. rewrite Hne. cbn [negb]. now rewrite Hp.
  - now rewrite length_map, SplitFacts.split_length.
  - intros body ->. rewrite SplitFacts.split_trailing, map_app.
    apply in_or_app. right. cbn. now left.
  - intros body ->. rewrite SplitFacts.split_leading. cbn. now left.
Qed.

Lemma X15_inline_seeds_witness :
  exists S_nodes,
    S_perturbed_nodes Toy.w_adj (Toy.args (Some "A,B,") None) None [] = inr S_nodes /\
    List.length S_nodes = S (count_char ","%char "A,B,") /\
    (forall body, "A,B," = (body ++ ",")%string -> In EmptyString S_nodes) /\
    (forall body, "A,B," = String ","%char body -> In EmptyString S_nodes).
Proof.
  apply (X15_inline_seeds Toy.w_adj (Toy.args (Some "A,B,") None) None [] "A,B,").
  - reflexivity.
  - discriminate.
  - reflexivity.
Defined.

(** A comma left at the end of the seed list costs the run: the empty
    seed is no node of the graph. *)
Example toy_trailing_comma :
  main Toy.w_adj (Toy.args (Some "A,B,") (Some 1%Z)) = ([], inl (Exit 1)).
Proof. reflexivity. Qed.

(** ** More on the discovered subset *)

(** X16.  With --include_not_in_s and membership bits that are all 0 or
    1, F is the whole winning entry, node for node in rank order;
    without the switch F is the part of it with bit 1, so never
    longer. *)
Theorem X16_include_switch (argv_on argv_off : Args) (entry : rank_list) :
  includes_outside_S argv_on = true ->
  includes_outside_S argv_off = false ->
  (Forall (fun d => snd d = 0%Z \/ snd d = 1%Z) entry ->
   Fs argv_on entry = map fst entry) /\
  Fs argv_off entry = map fst (filter (fun d => Z.eqb (snd d) 1) entry) /\
  incl (Fs argv_off entry) (Fs argv_on entry) /\
  (List.length (Fs argv_off entry) <= List.length (Fs argv_on entry)
   <= List.length entry)%nat.
Proof.
  intros Hon Hoff. rewrite !Fs_filter, Hon, Hoff. cbn [andb].
  split; [|split; [|split]].
  - intros Hb. f_equal. induction entry as [|d entry IH]; cbn; [reflexivity|].
    inversion Hb as [|x l Hd Hl]; subst.
    destruct Hd as [-> | ->]; cbn; now rewrite IH.
  - f_equal. apply filter_ext. intros d. now rewrite orb_false_r.
  - intros n Hn. apply in_map_iff in Hn. destruct Hn as (d & <- & Hd).
    apply filter_In in Hd. destruct Hd as (Hd & Hb).
    apply in_map. apply filter_In. split; [exact Hd|].
    rewrite orb_false_r in Hb. now rewrite Hb.
  - rewrite !length_map. induction entry as [|d entry IH]; cbn; [lia|].
    destruct (Z.eqb (snd d) 1); cbn; [lia|].
    destruct (Z.eqb (snd d) 0); cbn; lia.
Qed.

Lemma X16_include_switch_witness :
  (Forall (fun d => snd d = 0%Z \/ snd d = 1%Z) Toy2.entry_ACB ->
   Fs Toy2.argv_include Toy2.entry_ACB = map fst Toy2.entry_ACB) /\
  Fs Toy.argv_AB Toy2.entry_ACB
  = map fst (filter (fun d => Z.eqb (snd d) 1) Toy2.entry_ACB) /\
  incl (Fs Toy.argv_AB Toy2.entry_ACB) (Fs Toy2.argv_include Toy2.entry_ACB) /\
  (List.length (Fs Toy.argv_AB Toy2.entry_ACB)
   <= List.length (Fs Toy2.argv_include Toy2.entry_ACB)
   <= List.length Toy2.entry_ACB)%nat.
Proof.
  apply (X16_include_switch Toy2.argv_include Toy.argv_AB Toy2.entry_ACB); reflexivity.
Defined.

(** ** The scoring stage *)

Section ScoringFacts.

Variable w : World.
Variable argv : Args.

Lemma select_columns_labels (df sub : DataFrame) (cols : list string) :
  Pd.select_columns df cols = Some sub ->
  df_columns sub = cols /\ df_index sub = df_index df /\
  forall c, In c cols -> In c (df_columns df).
Proof.
  unfold Pd.select_columns.
  destruct (Pd.select_columns_values df cols) as [vs|] eqn:E; [|discriminate].
  intros [= <-]. cbn. split; [reflexivity|]. split; [reflexivity|].
  revert vs E. induction cols as [|c cols IH]; cbn; intros vs E x Hx; [destruct Hx|].
  destruct (Pd.column df c) as [v|] eqn:Ec; [|discriminate].
  destruct (Pd.select_columns_values df cols) as [vs'|]; [|discriminate].
  destruct Hx as [<-|Hx]; [|eapply IH; eauto].
  unfold Pd.column in Ec.
  destruct (Pd.index_of c (df_columns df)) as [j|] eqn:Ej; [|discriminate].
  clear - Ej. revert j Ej. induction (df_columns df) as [|y l IHl]; cbn; [discriminate|].
  intros j. destruct (String.eqb c y) eqn:E.
  - apply String.eqb_eq in E. auto.
  - destruct (Pd.index_of c l); cbn; [|discriminate]. intros _. right. eapply IHl. reflexivity.
Qed.

(** With measurements, what the scorer gets. *)
Lemma data_mx_pvals_measured (st : Setup) (pvals : pvals_arg) (pt_id : option string) :
  path_exists w (experimental argv) = true ->
  outcome (data_mx_pvals w argv st) = inr pvals ->
  outcome (pt_id_of pvals) = inr pt_id ->
  exists df first rest,
    pvals_T pvals = PvalFrame df /\
    df_index df = st_target_patients st /\
    st_target_patients st = first :: rest /\
    pt_id = Some first /\
    (exists d, st_experimental_df st = Some d /\ df_columns df = df_index d /\
               forall c, In c (st_target_patients st) -> In c (df_columns d)).
Proof.
  unfold data_mx_pvals. intros -> Hd Hp.
  destruct (st_experimental_df st) as [d|]; [|discriminate].
  destruct (Pd.select_columns d (st_target_patients st)) as [sub|] eqn:Es; [|discriminate].
  injection Hd as <-.
  destruct (select_columns_labels _ _ _ Es) as (Hc & Hi & Hin).
  cbn in Hp. rewrite Hc in Hp.
  destruct (st_target_patients st) as [|first rest] eqn:Et; [discriminate|].
  injection Hp as <-.
  eexists. exists first, rest. split; [reflexivity|]. cbn.
  split; [exact Hc|]. split; [reflexivity|]. split; [reflexivity|].
  exists d. split; [reflexivity|]. split; [exact Hi|exact Hin].
Qed.

End ScoringFacts.



Section LastStage.

Variable w : World.
Variable argv : Args.
Variable st : Setup.
Variable rk : ranks_dict.

Lemma winner_in_range (res : list Row) (i : nat) (F : Row) :
  select_F res = inr (i, F) -> (i < List.length res)%nat.
Proof.
  unfold select_F. destruct (ind_F_largest res) as [|(j, r) tl]; [discriminate|].
  destruct (nth_error res j) as [F'|] eqn:E; [|discriminate].
  intros [= <- <-]. apply nth_error_Some. congruence.
Qed.

Lemma select_F_fails (res : list Row) (e : failure) :
  select_F res = inl e -> res = [] /\ e = IndexError.
Proof.
  destruct res as [|r0 rest].
  - cbn. intros [= <-]. auto.
  - destruct (WinnerFacts.select_F_winner r0 rest) as (i & F & Hsel & _). congruence.
Qed.

End LastStage.



(** ** What a result holds *)

(** X19.  In every result a run reports, the seed list is the one that
    passed the check, so each of its entries is a column of the
    adjacency table; the node count is the number of keys of G, the
    number of columns when no label is repeated; and the discovered
    subset is drawn from the nodes of the winning entry, so it is no
    longer than that entry. *)
Theorem X19_result_fields (w : World) (argv : Args) (path : string) (out : OutDict) :
  In (EvDumpResult path out) (trace (main w argv)) ->
  exists st rk ind_F F_info entry,
    reached_report w argv st rk ind_F F_info entry /\
    out_S_perturbed_nodes out = st_S st /\
    (forall n, In n (out_S_perturbed_nodes out) -> In n (adj_columns (st_adj_df st))) /\
    out_number_of_nodes_in_G out = List.length (st_G st) /\
    (out_number_of_nodes_in_G out <= List.length (adj_columns (st_adj_df st)))%nat /\
    (NoDup (adj_columns (st_adj_df st)) ->
     out_number_of_nodes_in_G out = List.length (adj_columns (st_adj_df st))) /\
    incl (out_F_most_connected_nodes out) (map fst entry) /\
    (List.length (out_F_most_connected_nodes out) <= List.length entry)%nat.
Proof.
  intros Hin.
  destruct (main_report w argv path out Hin) as (st & rk & i & F & entry & Hr & _ & ->).
  exists st, rk, i, F, entry. split; [exact Hr|].
  destruct Hr as [Hs Hv _ _ _].
  destruct (setup_inv w argv st Hs) as (_ & _ & _ & HG & _).
  destruct (build_G_spec (st_adj_df st)) as (_ & Hk & _ & _ & Hnd & Hlen).
  cbn [out_S_perturbed_nodes out_number_of_nodes_in_G out_F_most_connected_nodes].
  split; [reflexivity|]. split; [|split; [reflexivity|split; [|split; [|split]]]].
  - intros n Hn. apply Hk. rewrite <- HG.
    now apply (proj1 (all_seeds_known (st_G st) (st_S st)) Hv).
  - rewrite HG. exact Hlen.
  - intros Hn. rewrite HG. specialize (Hnd Hn).
    unfold Py.dict_keys in Hnd. rewrite <- Hnd. now rewrite length_map.
  - rewrite Fs_filter. intros n Hn. apply in_map_iff in Hn.
    destruct Hn as (d & <- & Hd). apply filter_In in Hd. apply in_map. tauto.
  - rewrite Fs_filter, length_map. apply filter_length_le.
Qed.

Lemma X19_result_fields_witness :
  exists st rk ind_F F_info entry,
    reached_report Toy.w_adj Toy.argv_AB st rk ind_F F_info entry /\
    out_S_perturbed_nodes Toy.out_AB = st_S st /\
    (forall n, In n (out_S_perturbed_nodes Toy.out_AB) ->
               In n (adj_columns (st_adj_df st))) /\
    out_number_of_nodes_in_G Toy.out_AB = List.length (st_G st) /\
    (out_number_of_nodes_in_G Toy.out_AB <= List.length (adj_columns (st_adj_df st)))%nat /\
    (NoDup (adj_columns (st_adj_df st)) ->
     out_number_of_nodes_in_G Toy.out_AB = List.length (adj_columns (st_adj_df st))) /\
    incl (out_F_most_connected_nodes Toy.out_AB) (map fst entry) /\
    (List.length (out_F_most_connected_nodes Toy.out_AB) <= List.length entry)%nat.
Proof.
  apply (X19_result_fields Toy.w_adj Toy.argv_AB "adj.json" Toy.out_AB).
  exact toy_run_AB_result.
Defined.

(** ** Feeding the ranks back *)

Section CacheReplay.

Variable w : World.
Variable argv : Args.
Variable path : string.
Variable rk : ranks_dict.

Hypothesis fresh_path : ~ In path (input_paths argv).

Lemma with_cache_exists (q : string) :
  q <> path -> path_exists (with_cache w path rk) q = path_exists w q.
Proof.
  intros Hq. cbn. destruct (String.eqb_spec q path); [contradiction|reflexivity].
Qed.

Lemma fresh_experimental : experimental argv <> path.
Proof. intros E. apply fresh_path. unfold input_paths. rewrite E. now left. Qed.

Lemma fresh_control : control argv <> path.
Proof. intros E. apply fresh_path. unfold input_paths. rewrite E. right. now left. Qed.

Lemma fresh_adj_matrix : adj_matrix argv <> path.
Proof. intros E. apply fresh_path. unfold input_paths. rewrite E. right. right. now left. Qed.

Lemma fresh_s_module (spec : string) : s_module argv = Some spec -> spec <> path.
Proof.
  intros Hs E. apply fresh_path. unfold input_paths. rewrite Hs, E.
  right. right. right. now left.
Qed.

Lemma replay_read_experimental :
  read_experimental (with_cache w path rk) (with_ranks argv path) = read_experimental w argv.
Proof.
  unfold read_experimental. cbn [experimental control with_ranks].
  rewrite (with_cache_exists _ fresh_experimental), (with_cache_exists _ fresh_control).
  reflexivity.
Qed.

Lemma replay_read_adjacency (df : option DataFrame) :
  read_adjacency (with_cache w path rk) (with_ranks argv path) df = read_adjacency w argv df.
Proof.
  unfold read_adjacency. cbn [adj_matrix out_graph_name with_ranks].
  rewrite (with_cache_exists _ fresh_adj_matrix). reflexivity.
Qed.

Lemma replay_seeds (df : option DataFrame) (tp : list string) :
  S_perturbed_nodes (with_cache w path rk) (with_ranks argv path) df tp
  = S_perturbed_nodes w argv df tp.
Proof.
  unfold S_perturbed_nodes. cbn [s_module with_ranks].
  destruct (s_module argv) as [spec|] eqn:Es; [|reflexivity].
  rewrite (with_cache_exists _ (fresh_s_module spec Es)). reflexivity.
Qed.

Lemma replay_setup :
  setup (with_cache w path rk) (with_ranks argv path) = setup w argv.
Proof.
  unfold setup. rewrite replay_read_experimental.
  destruct (read_experimental w argv) as (t, [e|(df, tp)]); [reflexivity|].
  cbn [bind]. rewrite replay_read_adjacency.
  destruct (read_adjacency w argv df) as (t', [e|adj]); [reflexivity|].
  cbn [bind fst snd]. rewrite replay_seeds. reflexivity.
Qed.

Lemma replay_collect (st : Setup) :
  collect_ranks (with_cache w path rk) (with_ranks argv path) st = ([], inr rk).
Proof.
  unfold collect_ranks. cbn [ranks with_ranks path_exists with_cache json_load].
  now rewrite String.eqb_refl.
Qed.

Lemma replay_score (st : Setup) (rk' : ranks_dict) :
  score_and_report (with_cache w path rk) (with_ranks argv path) st rk'
  = score_and_report w argv st rk'.
Proof.
  unfold score_and_report.
  assert (E : data_mx_pvals (with_cache w path rk) (with_ranks argv path) st
              = data_mx_pvals w argv st).
  { unfold data_mx_pvals. cbn [experimental with_ranks].
    rewrite (with_cache_exists _ fresh_experimental). reflexivity. }
  rewrite E. reflexivity.
Qed.

End CacheReplay.

Module FilterFacts.

Lemma filter_all {A : Type} (p : A -> bool) (l : list A) :
  Forall (fun x => p x = true) l -> filter p l = l.
Proof.
  induction 1 as [|x l Hx Hl IH]; cbn; [reflexivity|]. now rewrite Hx, IH.
Qed.

Lemma filter_none {A : Type} (p : A -> bool) (l : list A) :
  Forall (fun x => p x = false) l -> filter p l = [].
Proof.
  induction 1 as [|x l Hx Hl IH]; cbn; [reflexivity|]. now rewrite Hx, IH.
Qed.

End FilterFacts.

Lemma score_and_report_no_ranking (w : World) (argv : Args) (st : Setup) (rk : ranks_dict) :
  Forall (fun e => negb (is_ranking e) = true) (trace (score_and_report w argv st rk)).
Proof.
  destruct (score_and_report_cases w argv st rk)
    as [(e & E)|(pvals & pt_id & _ & _ & [(e & E)|(i & F & entry & _ & _ & E)])];
    rewrite E; cbn; repeat constructor.
Qed.



(** ** The winner's figures among all rows *)

Section Minimal.

Local Open Scope R_scope.

Lemma p_value_antitone (r1 r2 : Row) :
  (d_score r1 <= d_score r2)%Q -> p_value_F r2 <= p_value_F r1.
Proof.
  intros H. unfold p_value_F. apply Rle_Rpower; [lra|].
  apply Qle_Rle in H. lra.
Qed.

Lemma kmcm_antitone (r1 r2 : Row) :
  (String.length (optimalBS r1) <= String.length (optimalBS r2))%nat ->
  kmcm_probability r2 <= kmcm_probability r1.
Proof.
  intros H. unfold kmcm_probability. apply Rle_Rpower; [lra|].
  apply IZR_le. lia.
Qed.

End Minimal.

(** X21.  The p_value a run reports is the least that any row of the
    scorer's table would have given, and its kmcm_probability is the
    least among the rows that share the highest d.score. *)
Theorem X21_least_p_value (w : World) (argv : Args) (path : string) (out : OutDict) :
  In (EvDumpResult path out) (trace (main w argv)) ->
  exists st rk ind_F F_info entry pvals pt_id,
    reached_report w argv st rk ind_F F_info entry /\
    outcome (data_mx_pvals w argv st) = inr pvals /\
    outcome (pt_id_of pvals) = inr pt_id /\
    let res := get_encoding_length w (get_pt_bs_by_k w (st_S st) rk) (st_G st)
                                   (pvals_T pvals) pt_id in
    select_F res = inr (ind_F, F_info) /\
    (forall r, In r res -> (out_p_value out <= p_value_F r)%R) /\
    (forall r, In r res -> (d_score r == d_score F_info)%Q ->
               (out_kmcm_probability out <= kmcm_probability r)%R).
Proof.
  intros Hin.
  destruct (main_report w argv path out Hin) as (st & rk & i & F & entry & Hr & _ & ->).
  pose proof Hr as [_ _ _ (pvals & pt_id & Hd & Hp & Hsel) _].
  exists st, rk, i, F, entry, pvals, pt_id.
  split; [exact Hr|]. split; [exact Hd|]. split; [exact Hp|].
  intros res. split; [exact Hsel|].
  assert (Hw : WinnerSpec.is_winner res i F).
  { subst res.
    destruct (get_encoding_length w (get_pt_bs_by_k w (st_S st) rk) (st_G st)
                                  (pvals_T pvals) pt_id) as [|r0 rest]; [discriminate|].
    destruct (WinnerFacts.select_F_winner r0 rest) as (i' & F' & Hsel' & Hwin).
    rewrite Hsel in Hsel'. injection Hsel' as <- <-. exact Hwin. }
  destruct Hw as [_ Hscore Hlen _ _].
  cbn [out_p_value out_kmcm_probability]. split.
  - intros r Hr'. apply p_value_antitone. now apply Hscore.
  - intros r Hr' Hd'. apply kmcm_antitone. now apply Hlen.
Qed.

Lemma X21_least_p_value_witness :
  exists st rk ind_F F_info entry pvals pt_id,
    reached_report Toy.w_adj Toy.argv_AB st rk ind_F F_info entry /\
    outcome (data_mx_pvals Toy.w_adj Toy.argv_AB st) = inr pvals /\
    outcome (pt_id_of pvals) = inr pt_id /\
    let res := get_encoding_length Toy.w_adj (get_pt_bs_by_k Toy.w_adj (st_S st) rk)
                                   (st_G st) (pvals_T pvals) pt_id in
    select_F res = inr (ind_F, F_info) /\
    (forall r, In r res -> (out_p_value Toy.out_AB <= p_value_F r)%R) /\
    (forall r, In r res -> (d_score r == d_score F_info)%Q ->
               (out_kmcm_probability Toy.out_AB <= kmcm_probability r)%R).
Proof.
  apply (X21_least_p_value Toy.w_adj Toy.argv_AB "adj.json" Toy.out_AB).
  exact toy_run_AB_result.
Defined.
